(** * hailo_rpi_common: frame-buffer decoding and host probes

    A shallow embedding of [hailo_apps_infra/common/hailo_rpi_common.py]:
    the GStreamer-buffer-to-numpy conversion ([handle_rgb], [handle_nv12],
    [handle_yuyv], [FORMAT_HANDLERS], [get_numpy_from_buffer]), the
    negotiated-caps accessor ([get_caps_from_pad]) and the two
    external-process probes ([detect_pkg_installed], [detect_hailo_arch]).

    Python exceptions are an error result, the interpreter state that the
    functions touch (the memory blocks behind buffers and arrays, the calls
    received by a buffer, the lines printed) is threaded explicitly. *)

From Stdlib Require Import ZArith Ascii.
From Stdlib.Strings Require Import Byte.
From stdpp Require Import base numbers list option strings gmap.

Local Open Scope Z_scope.

(** ** Exceptions and the state-and-exception monad *)

Inductive exn_class :=
  | ValueError
  | TypeError
  | CalledProcessError
  | FileNotFoundError
  | PermissionError
  | UnicodeDecodeError.

(** Every class above derives from [Exception]; [exn_msg] is [str(e)]. *)
Record exn := Exn { exn_cls : exn_class; exn_msg : string }.

Definition exn_class_eqb (a b : exn_class) : bool :=
  match a, b with
  | ValueError, ValueError
  | TypeError, TypeError
  | CalledProcessError, CalledProcessError
  | FileNotFoundError, FileNotFoundError
  | PermissionError, PermissionError
  | UnicodeDecodeError, UnicodeDecodeError => true
  | _, _ => false
  end.

Inductive result (A : Type) :=
  | Ok (a : A)
  | Raise (e : exn).
Arguments Ok {A} a.
Arguments Raise {A} e.

(** A computation over a state [S] that returns or raises. *)
Definition M (S A : Type) : Type := S → result A * S.

Definition ret {S A} (a : A) : M S A := λ s, (Ok a, s).
Definition raise {S A} (e : exn) : M S A := λ s, (Raise e, s).
Definition bind {S A B} (m : M S A) (k : A → M S B) : M S B :=
  λ s, match m s with
       | (Ok a, s1) => k a s1
       | (Raise e, s1) => (Raise e, s1)
       end.
Definition lift {S A} (r : result A) : M S A := λ s, (r, s).

(** [try: body finally: fin]: [fin] runs on every exit of [body]; the
    outcome of [body] is kept unless [fin] itself raises. *)
Definition try_finally {S A B} (body : M S A) (fin : M S B) : M S A :=
  λ s, match body s with
       | (r, s1) => match fin s1 with
                    | (Ok _, s2) => (r, s2)
                    | (Raise e, s2) => (Raise e, s2)
                    end
       end.

(** [try: body except cls: handler]: only an exception for which [catches]
    holds is handled, any other one propagates. *)
Definition try_except {S A} (body : M S A) (catches : exn → bool)
    (handler : exn → M S A) : M S A :=
  λ s, match body s with
       | (Ok a, s1) => (Ok a, s1)
       | (Raise e, s1) => if catches e then handler e s1 else (Raise e, s1)
       end.

Notation "'let*' x := m 'in' k" := (bind m (λ x, k))
  (at level 10, x name, m at level 100, k at level 200).

(** ** Memory: blocks of bytes, buffers and views *)

Abbreviation loc := nat (only parsing).

(** A block is live ([Some bytes]) or released ([None]). *)
Abbreviation heap := (list (option (list byte))) (only parsing).

(** The largest [npy_intp] and [Py_ssize_t] on the 64-bit hosts the code
    runs on, and the smallest [npy_intp]. *)
Definition NPY_MAX_INTP : Z := 9223372036854775807.
Definition NPY_MIN_INTP : Z := -9223372036854775808.

(** The bytes of a block. No object is longer than [Py_ssize_t] can say:
    a block that would be is not one, and reads as empty. *)
Definition heap_block (h : heap) (l : loc) : list byte :=
  match h !! l with
  | Some (Some bs) =>
      if Z.of_nat (length bs) <=? NPY_MAX_INTP then bs else []
  | _ => []
  end.

Inductive buf_event :=
  | EvMap (l : loc)
  | EvUnmap (l : loc).

Record world := World {
  w_heap : heap;
  w_calls : list buf_event
}.

(** A byte-sliceable window on a block (what [map_info.data] is). *)
Record bufview := BufView { bv_loc : loc; bv_off : nat; bv_len : nat }.

(** Python's normalisation of a slice bound against a length. *)
Definition py_clamp (len : nat) (i : Z) : nat :=
  if i <? 0 then Z.to_nat (Z.max 0 (Z.of_nat len + i))
  else Z.to_nat (Z.min i (Z.of_nat len)).

(** [v[:n]] *)
Definition slice_to (v : bufview) (n : Z) : bufview :=
  {| bv_loc := bv_loc v; bv_off := bv_off v;
     bv_len := py_clamp (bv_len v) n |}.

(** [v[n:]] *)
Definition slice_from (v : bufview) (n : Z) : bufview :=
  let s := py_clamp (bv_len v) n in
  {| bv_loc := bv_loc v; bv_off := (bv_off v + s)%nat;
     bv_len := (bv_len v - s)%nat |}.

(** The GStreamer buffer as the decoder uses it: the block that holds the
    frame, and whether [map] reports success. *)
Record GstBuffer := { buf_loc : loc; buf_mappable : bool }.

Record MapInfo := { mi_data : bufview }.

(** [buffer.map(Gst.MapFlags.READ)] *)
Definition buffer_map (buffer : GstBuffer) : M world (bool * MapInfo) :=
  λ w,
    let size := if buf_mappable buffer
                then length (heap_block (w_heap w) (buf_loc buffer))
                else 0%nat in
    (Ok (buf_mappable buffer,
         {| mi_data := BufView (buf_loc buffer) 0 size |}),
     World (w_heap w) (w_calls w ++ [EvMap (buf_loc buffer)])).

(** [buffer.unmap(map_info)] *)
Definition buffer_unmap (buffer : GstBuffer) (map_info : MapInfo)
    : M world unit :=
  λ w, (Ok tt, World (w_heap w) (w_calls w ++ [EvUnmap (buf_loc buffer)])).

(** ** numpy arrays *)

Inductive dtype := uint8 | float64.

Definition itemsize (dt : dtype) : Z :=
  match dt with uint8 => 1 | float64 => 8 end.

Definition prod_shape (shape : list Z) : Z := foldr Z.mul 1 shape.

(** An array does not hold its elements: it points into a block, its own
    one or somebody else's. *)
Record ndarray := NdArray {
  nd_shape : list Z;
  nd_dtype : dtype;
  nd_loc : loc;
  nd_off : nat
}.

Definition nd_nbytes (a : ndarray) : nat :=
  Z.to_nat (itemsize (nd_dtype a) * prod_shape (nd_shape a)).

Definition nd_bytes (h : heap) (a : ndarray) : list byte :=
  take (nd_nbytes a) (drop (nd_off a) (heap_block h (nd_loc a))).

(** Arithmetic on [npy_intp]: a 64-bit signed integer that wraps around. *)
Definition wrap_intp (z : Z) : Z :=
  (z - NPY_MIN_INTP) `mod` 18446744073709551616 + NPY_MIN_INTP.

(** The loop over the dimensions with which numpy sizes a new array,
    starting from the item size: a dimension 0 is passed over, a negative
    one is refused, and the running product must stay within [npy_intp]. *)
Fixpoint dims_nbytes (nbytes : Z) (dims : list Z) : result Z :=
  match dims with
  | [] => Ok nbytes
  | d :: rest =>
      if d =? 0 then dims_nbytes nbytes rest
      else if d <? 0
      then Raise (Exn ValueError "negative dimensions are not allowed")
      else if NPY_MAX_INTP <? nbytes * d
      then Raise (Exn ValueError
                    "array is too big; `arr.size * arr.dtype.itemsize` is larger than the maximum possible size.")
      else dims_nbytes (nbytes * d) rest
  end.

(** [np.ndarray(shape=..., dtype=..., buffer=...)]: a view on the buffer's
    memory, for the shapes of two and three dimensions that the handlers
    pass. numpy converts the dimensions to [npy_intp], compares the
    buffer's length with the bytes the shape asks for (a product that
    wraps around), and then sizes the array with the loop above. *)
Definition np_ndarray (shape : list Z) (dt : dtype) (buffer : bufview)
    : result ndarray :=
  if existsb (λ d, (d <? NPY_MIN_INTP) || (NPY_MAX_INTP <? d)) shape
  then Raise (Exn ValueError "Maximum allowed dimension exceeded")
  else if Z.of_nat (bv_len buffer)
          <? wrap_intp (itemsize dt * prod_shape shape)
  then Raise (Exn TypeError "buffer is too small for requested array")
  else match dims_nbytes (itemsize dt) shape with
       | Raise e => Raise e
       | Ok _ => Ok {| nd_shape := shape; nd_dtype := dt;
                       nd_loc := bv_loc buffer; nd_off := bv_off buffer |}
       end.

(** [a.copy()]: a fresh block that holds the bytes [a] shows now. *)
Definition nd_copy (a : ndarray) : M world ndarray :=
  λ w,
    (Ok {| nd_shape := nd_shape a; nd_dtype := nd_dtype a;
           nd_loc := length (w_heap w); nd_off := 0 |},
     World (w_heap w ++ [Some (nd_bytes (w_heap w) a)]) (w_calls w)).

(** Row-major position of a (possibly partial) index: the element offset
    and the shape of what is left. *)
Fixpoint nd_offset (shape idx : list Z) : option (Z * list Z) :=
  match idx, shape with
  | [], _ => Some (0, shape)
  | i :: idx', d :: shape' =>
      if (0 <=? i) && (i <? d)
      then match nd_offset shape' idx' with
           | Some (o, rest) => Some (i * prod_shape shape' + o, rest)
           | None => None
           end
      else None
  | _ :: _, [] => None
  end.

(** [a[i, j, ...]] for in-range non-negative indices: the bytes of the
    sub-array. *)
Definition nd_item (h : heap) (a : ndarray) (idx : list Z)
    : option (list byte) :=
  match nd_offset (nd_shape a) idx with
  | Some (o, rest) =>
      let sz := itemsize (nd_dtype a) in
      Some (take (Z.to_nat (sz * prod_shape rest))
                 (drop (Z.to_nat (sz * o)) (nd_bytes h a)))
  | None => None
  end.

(** ** The format handlers *)

(** What [get_numpy_from_buffer] returns: one array, or a pair. *)
Inductive decoded :=
  | One (a : ndarray)
  | Two (y uv : ndarray).

Definition handle_rgb (map_info : MapInfo) (width height : Z)
    : M world decoded :=
  let* v := lift (np_ndarray [height; width; 3] uint8 (mi_data map_info)) in
  let* a := nd_copy v in
  ret (One a).

Definition handle_nv12 (map_info : MapInfo) (width height : Z)
    : M world decoded :=
  let y_plane_size := width * height in
  let uv_plane_size := width * height `div` 2 in
  let* y_view := lift (np_ndarray [height; width] uint8
                         (slice_to (mi_data map_info) y_plane_size)) in
  let* y_plane := nd_copy y_view in
  let* uv_view := lift (np_ndarray [height `div` 2; width `div` 2; 2] uint8
                          (slice_from (mi_data map_info) y_plane_size)) in
  let* uv_plane := nd_copy uv_view in
  ret (Two y_plane uv_plane).

Definition handle_yuyv (map_info : MapInfo) (width height : Z)
    : M world decoded :=
  let* v := lift (np_ndarray [height; width; 2] uint8 (mi_data map_info)) in
  let* a := nd_copy v in
  ret (One a).

Abbreviation handler := (MapInfo → Z → Z → M world decoded) (only parsing).

Definition FORMAT_HANDLERS : gmap string handler :=
  {[ "RGB" := handle_rgb; "NV12" := handle_nv12; "YUYV" := handle_yuyv ]}.

Definition get_numpy_from_buffer (buffer : GstBuffer) (format : string)
    (width height : Z) : M world decoded :=
  let* mapped := buffer_map buffer in
  let '(success, map_info) := mapped in
  if negb success
  then raise (Exn ValueError "Buffer mapping failed")
  else
    try_finally
      (match FORMAT_HANDLERS !! format with
       | None => raise (Exn ValueError ("Unsupported format: " +:+ format))
       | Some h => h map_info width height
       end)
      (buffer_unmap buffer map_info).

(** ** The negotiated-caps accessor *)

(** A field value of a caps structure. *)
Inductive pyval :=
  | PyNone
  | PyStr (s : string)
  | PyInt (z : Z).

(** What the accessor hands back: a tuple, or [None] when the function
    body ends without a [return]. *)
Inductive pyret :=
  | RetNone
  | RetTuple (vs : list pyval).

(** The objects are known by what the function asks of them: their truth
    value in an [if], and the one method it calls. *)
Record GstStructure := {
  structure_truthy : bool;
  get_value : string → pyval
}.

Record GstCaps := {
  caps_truthy : bool;
  get_structure : nat → option GstStructure
}.

(** [get_current_caps] is [None] when no caps are negotiated on the pad. *)
Record GstPad := { get_current_caps : option GstCaps }.

Definition get_caps_from_pad (pad : GstPad) : pyret :=
  match get_current_caps pad with
  | Some caps =>
      if caps_truthy caps then
        match get_structure caps 0 with
        | Some structure =>
            if structure_truthy structure then
              let format := get_value structure "format" in
              let width := get_value structure "width" in
              let height := get_value structure "height" in
              RetTuple [format; width; height]
            else RetNone (* the inner [if] has no [else] *)
        | None => RetNone (* likewise *)
        end
      else RetTuple [PyNone; PyNone; PyNone]
  | None => RetTuple [PyNone; PyNone; PyNone]
  end.

Definition is_triple (v : pyret) : Prop := ∃ a b c, v = RetTuple [a; b; c].

(** ** External processes and the probes *)

(** What running a command line does on the host: the call itself raises
    (the executable is missing or may not be run), or the process exits. *)
Inductive proc_outcome :=
  | Failed (e : exn)
  | Exited (rc : Z) (out err : string).

Definition host := list string → proc_outcome.

Record CompletedProcess := {
  returncode : Z;
  stdout : string;
  stderr : string
}.

(** The state of a probe: the lines printed so far. *)
Abbreviation printed := (list string) (only parsing).

Definition print (line : string) : M printed unit :=
  λ out, (Ok tt, out ++ [line]).

(** [subprocess.check_output(args)] *)
Definition subprocess_check_output (os : host) (args : list string)
    : M printed string :=
  lift match os args with
       | Failed e => Raise e
       | Exited rc out _ =>
           if rc =? 0 then Ok out
           else Raise (Exn CalledProcessError
                         "Command returned non-zero exit status")
       end.

(** [subprocess.run(args, capture_output=True, text=True)] *)
Definition subprocess_run (os : host) (args : list string)
    : M printed CompletedProcess :=
  lift match os args with
       | Failed e => Raise e
       | Exited rc out err =>
           Ok {| returncode := rc; stdout := out; stderr := err |}
       end.

Definition detect_pkg_installed (os : host) (pkg_name : string)
    : M printed bool :=
  try_except
    (let* _ := subprocess_check_output os ["dpkg"; "-s"; pkg_name] in
     ret true)
    (λ e, exn_class_eqb (exn_cls e) CalledProcessError)
    (λ _, ret false).

Definition newline : ascii := "010"%char.

(** [s.split('\n')] *)
Fixpoint split_nl (s : string) : list string :=
  match s with
  | EmptyString => [EmptyString]
  | String c s' =>
      if Ascii.eqb c newline then EmptyString :: split_nl s'
      else match split_nl s' with
           | line :: rest => String c line :: rest
           | [] => [String c EmptyString]
           end
  end.

(** [needle in hay] *)
Fixpoint str_in (needle hay : string) : bool :=
  String.prefix needle hay
  || match hay with
     | EmptyString => false
     | String _ hay' => str_in needle hay'
     end.

(** The [for line in ...] loop of [detect_hailo_arch], which returns from
    inside its body: [Some arch] when it does, [None] when it runs out. *)
Fixpoint scan_lines (lines : list string) : option string :=
  match lines with
  | [] => None
  | line :: rest =>
      if str_in "Device Architecture" line then
        if str_in "HAILO8L" line then Some "hailo8l"
        else if str_in "HAILO8" line then Some "hailo8"
        else scan_lines rest
      else scan_lines rest
  end.

Definition detect_hailo_arch (os : host) : M printed (option string) :=
  try_except
    (let* result := subprocess_run os ["hailortcli"; "fw-control"; "identify"] in
     if negb (returncode result =? 0) then
       let* _ := print ("Error running hailortcli: " +:+ stderr result) in
       ret None
     else
       match scan_lines (split_nl (stdout result)) with
       | Some arch => ret (Some arch)
       | None =>
           let* _ := print "Could not determine Hailo architecture from device information." in
           ret None
       end)
    (λ _, true)
    (λ e,
       let* _ := print ("An error occurred while detecting Hailo architecture: "
                        +:+ exn_msg e) in
       ret None).

(** ** Vocabulary of the statements *)

(** A handler only allocates: the blocks that were there stay as they
    were, new ones come after them, and the buffer receives no call. *)
Definition extends (w w' : world) : Prop :=
  (∃ blocks, w_heap w' = w_heap w ++ blocks) ∧ w_calls w' = w_calls w.

Definition is_unmap (l : loc) (e : buf_event) : bool :=
  match e with
  | EvUnmap l' => Nat.eqb l l'
  | EvMap _ => false
  end.

(** How often [unmap] was called on the buffer at [l]. *)
Definition unmap_count (l : loc) (calls : list buf_event) : nat :=
  length (filter (λ e, is_unmap l e = true) calls).

(** The world and the mapping the body of the [try] starts from. *)
Definition mapped_world (buffer : GstBuffer) (w : world) : world :=
  World (w_heap w) (w_calls w ++ [EvMap (buf_loc buffer)]).

Definition mapping (buffer : GstBuffer) (w : world) : MapInfo :=
  {| mi_data := BufView (buf_loc buffer) 0
                  (length (heap_block (w_heap w) (buf_loc buffer))) |}.

(** The body of the [try]. *)
Definition dispatch (format : string) (map_info : MapInfo)
    (width height : Z) : M world decoded :=
  match FORMAT_HANDLERS !! format with
  | None => raise (Exn ValueError ("Unsupported format: " +:+ format))
  | Some h => h map_info width height
  end.

(** The product of the dimensions with every 0 counted as 1: what the
    sizing loop of numpy multiplies up. *)
Definition nonzero_prod (shape : list Z) : Z :=
  foldr (λ d acc, Z.max d 1 * acc) 1 shape.

Definition decoded_arrays (r : decoded) : list ndarray :=
  match r with
  | One a => [a]
  | Two y uv => [y; uv]
  end.

(** The bytes of a frame: for each plane of the format, the product of
    the shape its handler asks numpy for. *)
Definition frame_bytes (format : string) (width height : Z) : Z :=
  if String.eqb format "RGB" then height * width * 3
  else if String.eqb format "NV12"
  then height * width + (height `div` 2) * (width `div` 2) * 2
  else if String.eqb format "YUYV" then height * width * 2
  else 0.

(** The bytes the buffer holds when the call is made. *)
Definition frame (buffer : GstBuffer) (w : world) : list byte :=
  heap_block (w_heap w) (buf_loc buffer).

Definition map_unmap (buffer : GstBuffer) : list buf_event :=
  [EvMap (buf_loc buffer); EvUnmap (buf_loc buffer)].

Definition u8 (n : N) : byte := default x00 (Byte.of_N n).

(** The byte values 0, 1, ..., n-1. *)
Definition byte_seq (n : nat) : list byte :=
  (λ i, u8 (N.of_nat i)) <$> seq 0 n.

(** An array a handler returns sits in a block made during the call, and
    is no larger than the mapping it was copied from. *)
Definition copied_out (w : world) (map_info : MapInfo) (a : ndarray) : Prop :=
  (length (w_heap w) ≤ nd_loc a)%nat
  ∧ (nd_nbytes a ≤ bv_len (mi_data map_info))%nat.

(** A pad whose caps are there but have no structure to give. *)
Definition pad_without_structure : GstPad :=
  {| get_current_caps :=
       Some {| caps_truthy := true; get_structure := λ _, None |} |}.

Definition dpkg_args (pkg_name : string) : list string :=
  ["dpkg"; "-s"; pkg_name].

Definition hailortcli_args : list string :=
  ["hailortcli"; "fw-control"; "identify"].

(** A host on which [dpkg] is not installed: starting it raises. *)
Definition host_without_dpkg : host :=
  λ _, Failed (Exn FileNotFoundError
                 "[Errno 2] No such file or directory: 'dpkg'").

(** A line the loop may meet before the HAILO8L one without harm: it does
    not make the loop answer hailo8. *)
Definition not_plain_HAILO8 (line : string) : Prop :=
  str_in "Device Architecture" line = true →
  str_in "HAILO8" line = true →
  str_in "HAILO8L" line = true.

Definition nl : string := String newline EmptyString.

(** The report of a host with two devices, the Hailo-8 listed first. *)
Definition two_devices : string :=
  "Device Architecture: HAILO8" +:+ nl +:+ "Device Architecture: HAILO8L".

(** A mappable buffer over block 0, and worlds in which that block holds
    24 bytes (a 4x2 RGB frame), 19 bytes (a 5x3 NV12 frame) and 12 bytes (a
    4x2 NV12 frame). *)
Definition buffer0 : GstBuffer := {| buf_loc := 0; buf_mappable := true |}.
Definition unmappable0 : GstBuffer := {| buf_loc := 0; buf_mappable := false |}.
Definition world24 : world := World [Some (byte_seq 24)] [].
Definition world19 : world := World [Some (byte_seq 19)] [].
Definition world12 : world := World [Some (byte_seq 12)] [].

(** Worlds in which block 0 holds 3 bytes, and none. *)
Definition world3 : world := World [Some (byte_seq 3)] [].
Definition world_empty : world := World [Some []] [].

(** A single-device report: a board line, then the architecture line. *)
Definition one_device : string :=
  "Board Name: Hailo-8" +:+ nl +:+ "Device Architecture: HAILO8L" +:+ nl.

(** ** Host architecture *)

(** What [platform] reports: [platform.machine()], [platform.system()] and
    [platform.uname().node]. *)
Record platform_info := {
  machine : string;
  system : string;
  node : string
}.

(** [c.lower()] on an ASCII character: "A".."Z" move to "a".."z". *)
Definition lower_ascii (c : ascii) : ascii :=
  let n := nat_of_ascii c in
  if ((65 <=? n) && (n <=? 90))%nat then ascii_of_nat (n + 32) else c.

(** [s.lower()] *)
Fixpoint str_lower (s : string) : string :=
  match s with
  | EmptyString => EmptyString
  | String c s' => String (lower_ascii c) (str_lower s')
  end.

Definition detect_device_arch (platform : platform_info) : string :=
  let machine := str_lower (machine platform) in
  let system := str_lower (system platform) in
  if str_in "arm" machine || str_in "aarch64" machine then
    if String.eqb system "linux"
       && (str_in "raspberrypi" (node platform)
           || str_in "pi" (node platform))
    then "rpi"
    else "arm"
  else if str_in "x86" machine || str_in "amd64" machine then "x86"
  else "unknown".

(** ** Resource directories *)

(** A path is the list of its components, the root being the empty list;
    a file system says which paths are directories and which are regular
    files. *)
Abbreviation path := (list string) (only parsing).

Inductive entry := Dir | File.

#[global] Instance entry_eq_dec : EqDecision entry.
Proof. solve_decision. Defined.

Abbreviation filesystem := (gmap (list string) entry) (only parsing).

(** The errors [mkdir] can end in here, with the offending path. *)
Inductive os_error :=
  | FileExistsError (p : path)
  | NotADirectoryError (p : path).

(** [s.split(sep)] for a one-character separator. *)
Fixpoint split_on (sep : ascii) (s : string) : list string :=
  match s with
  | EmptyString => [EmptyString]
  | String c s' =>
      if Ascii.eqb c sep then EmptyString :: split_on sep s'
      else match split_on sep s' with
           | part :: rest => String c part :: rest
           | [] => [String c EmptyString]
           end
  end.

(** [base_path / sub] for a relative [sub] written with "/". *)
Definition path_join (base_path : path) (sub : string) : path :=
  base_path ++ split_on "/"%char sub.

(** [Path.mkdir(parents=True, exist_ok=True)], walking down from the
    components already passed ([pre]): a directory on the way is entered,
    a missing one is made, a regular file stops the call (it is in the way
    of a parent, or it is where the directory itself should go) with an
    error that names the directory that was to be made. The outcome is
    [None] for a normal return, or the error raised. Only directories and
    regular files are told apart: what else makes [mkdir] fail on a real
    file system (permissions, links, a full disk) is outside this
    picture. *)
Fixpoint mkdir_walk (pre : path) (todo : list string) (fs : filesystem)
    : option os_error * filesystem :=
  match todo with
  | [] => (None, fs)
  | c :: rest =>
      let q := pre ++ [c] in
      match fs !! q with
      | Some Dir => mkdir_walk q rest fs
      | Some File =>
          (Some match rest with
                | [] => FileExistsError q
                | _ :: _ => NotADirectoryError (q ++ rest)
                end, fs)
      | None => mkdir_walk q rest (<[q := Dir]> fs)
      end
  end.

Definition mkdir_parents_exist_ok (p : path) (fs : filesystem)
    : option os_error * filesystem :=
  mkdir_walk [] p fs.

(** [for sub in subs: (base_path / sub).mkdir(parents=True, exist_ok=True)];
    the first error ends the loop. *)
Fixpoint mkdir_each (base_path : path) (subs : list string) (fs : filesystem)
    : option os_error * filesystem :=
  match subs with
  | [] => (None, fs)
  | sub :: subs' =>
      match mkdir_parents_exist_ok (path_join base_path sub) fs with
      | (None, fs1) => mkdir_each base_path subs' fs1
      | (Some e, fs1) => (Some e, fs1)
      end
  end.

Definition create_standard_resource_dirs (base_path : path)
    (fs : filesystem) : option os_error * filesystem :=
  mkdir_each base_path
    ["models/hailo8"; "models/hailo8l"; "models/hailo10";
     "videos"; "photos"; "gifs"]
    fs.

(** The directories the layout consists of, by components. *)
Definition standard_dirs : list (list string) :=
  [["models"]; ["models"; "hailo8"]; ["models"; "hailo8l"];
   ["models"; "hailo10"]; ["videos"]; ["photos"]; ["gifs"]].

(** [fs'] is [fs] with some missing paths made into directories. *)
Definition adds_dirs_only (fs fs' : filesystem) : Prop :=
  ∀ p, fs' !! p = fs !! p ∨ (fs !! p = None ∧ fs' !! p = Some Dir).

(** ** More vocabulary *)

(** A line that lets the loop of [detect_hailo_arch] answer. *)
Definition classifiable (line : string) : bool :=
  str_in "Device Architecture" line && str_in "HAILO8" line.

(** A host whose hailortcli run is given. *)
Definition host_reporting (outcome : proc_outcome) : host := λ _, outcome.

(** Reports of a host with one Hailo-8, and of one with a Hailo-15. *)
Definition hailo8_report : string :=
  "Board Name: Hailo-8" +:+ nl +:+ "Device Architecture: HAILO8" +:+ nl.
Definition hailo15_report : string :=
  "Board Name: Hailo-15" +:+ nl +:+ "Device Architecture: HAILO15H" +:+ nl.

(** A base path, and a file system in which a regular file sits where the
    videos directory should go. *)
Definition resources : list string := ["opt"; "resources"].
Definition blocked_fs : gmap (list string) entry :=
  {[ ["opt"] := Dir; ["opt"; "resources"] := Dir;
     ["opt"; "resources"; "videos"] := File ]}.

(** * Properties *)

(** ** The dispatch table *)

Lemma FORMAT_HANDLERS_RGB : FORMAT_HANDLERS !! "RGB" = Some handle_rgb.
Proof. reflexivity. Qed.

Lemma FORMAT_HANDLERS_NV12 : FORMAT_HANDLERS !! "NV12" = Some handle_nv12.
Proof. reflexivity. Qed.

Lemma FORMAT_HANDLERS_YUYV : FORMAT_HANDLERS !! "YUYV" = Some handle_yuyv.
Proof. reflexivity. Qed.

Lemma FORMAT_HANDLERS_unknown (format : string) :
  format ≠ "RGB" → format ≠ "NV12" → format ≠ "YUYV" →
  FORMAT_HANDLERS !! format = None.
Proof.
  intros Hr Hn Hy. unfold FORMAT_HANDLERS.
  rewrite !lookup_insert_ne by congruence.
  apply lookup_singleton_ne. congruence.
Qed.

Lemma FORMAT_HANDLERS_inv (format : string) (h : handler) :
  FORMAT_HANDLERS !! format = Some h →
  (format = "RGB" ∧ h = handle_rgb)
  ∨ (format = "NV12" ∧ h = handle_nv12)
  ∨ (format = "YUYV" ∧ h = handle_yuyv).
Proof.
  intros Hl.
  destruct (decide (format = "RGB")) as [->|Hr].
  { rewrite FORMAT_HANDLERS_RGB in Hl. left. split; congruence. }
  destruct (decide (format = "NV12")) as [->|Hn].
  { rewrite FORMAT_HANDLERS_NV12 in Hl. right; left. split; congruence. }
  destruct (decide (format = "YUYV")) as [->|Hy].
  { rewrite FORMAT_HANDLERS_YUYV in Hl. right; right. split; congruence. }
  rewrite FORMAT_HANDLERS_unknown in Hl by done. discriminate.
Qed.

(** ** What a handler does to the world *)

Lemma extends_refl (w : world) : extends w w.
Proof. split; [exists []; by rewrite app_nil_r | done]. Qed.

Lemma extends_trans (w1 w2 w3 : world) :
  extends w1 w2 → extends w2 w3 → extends w1 w3.
Proof.
  intros [[b1 H1] C1] [[b2 H2] C2]. split.
  - exists (b1 ++ b2). by rewrite H2, H1, app_assoc.
  - congruence.
Qed.

Lemma nd_copy_extends (a : ndarray) (w : world) :
  extends w (nd_copy a w).2.
Proof. split; [by eexists | done]. Qed.

Ltac step_handler :=
  repeat match goal with
  | |- context [np_ndarray ?s ?d ?v] => destruct (np_ndarray s d v)
  end.

Lemma handle_rgb_extends mi width height w :
  extends w (handle_rgb mi width height w).2.
Proof.
  unfold handle_rgb, bind, lift, ret. step_handler; simpl.
  - apply nd_copy_extends.
  - apply extends_refl.
Qed.

Lemma handle_yuyv_extends mi width height w :
  extends w (handle_yuyv mi width height w).2.
Proof.
  unfold handle_yuyv, bind, lift, ret. step_handler; simpl.
  - apply nd_copy_extends.
  - apply extends_refl.
Qed.

Lemma handle_nv12_extends mi width height w :
  extends w (handle_nv12 mi width height w).2.
Proof.
  unfold handle_nv12, bind, lift, ret. step_handler; simpl.
  all: try apply extends_refl.
  all: try (split; [by eexists | done]).
  split; [|done]. eexists. simpl. by rewrite <- app_assoc.
Qed.

Lemma handler_extends format (h : handler) mi width height w :
  FORMAT_HANDLERS !! format = Some h →
  extends w (h mi width height w).2.
Proof.
  intros Hl. destruct (FORMAT_HANDLERS_inv _ _ Hl) as [[_ ->]|[[_ ->]|[_ ->]]].
  - apply handle_rgb_extends.
  - apply handle_nv12_extends.
  - apply handle_yuyv_extends.
Qed.

(** ** The calls a buffer receives *)

Lemma unmap_count_app l (c1 c2 : list buf_event) :
  unmap_count l (c1 ++ c2) = (unmap_count l c1 + unmap_count l c2)%nat.
Proof. unfold unmap_count. by rewrite filter_app, length_app. Qed.

Lemma unmap_count_map_unmap l :
  unmap_count l [EvMap l; EvUnmap l] = 1%nat.
Proof.
  unfold unmap_count. rewrite filter_cons_False by (simpl; congruence).
  rewrite filter_cons_True by (simpl; apply Nat.eqb_refl). done.
Qed.

(** With a successful [map], the call is the dispatch followed by one
    [unmap], whatever the dispatch ends in. *)
Lemma get_numpy_from_buffer_mapped buffer format width height w :
  buf_mappable buffer = true →
  get_numpy_from_buffer buffer format width height w =
    let '(r, w1) := dispatch format (mapping buffer w) width height
                      (mapped_world buffer w) in
    (r, World (w_heap w1) (w_calls w1 ++ [EvUnmap (buf_loc buffer)])).
Proof.
  intros Hm. unfold get_numpy_from_buffer, bind, buffer_map, try_finally,
    buffer_unmap, mapped_world, mapping, dispatch.
  rewrite Hm. simpl. reflexivity.
Qed.

Lemma dispatch_extends format mi width height w :
  extends w (dispatch format mi width height w).2.
Proof.
  unfold dispatch.
  destruct (FORMAT_HANDLERS !! format) as [h|] eqn:Hl.
  - by eapply handler_extends.
  - apply extends_refl.
Qed.

(** C4. Whenever mapping the buffer succeeds, [get_numpy_from_buffer] calls
    the buffer's [unmap] exactly once, after the [map], before it returns
    or raises: for every outcome [r] of the call (an array, the
    unsupported-format error, an exception out of a handler), the calls
    the buffer has received are the earlier ones, one [map], one [unmap]. *)
Theorem unmap_called_exactly_once buffer format width height w r w' :
  buf_mappable buffer = true →
  get_numpy_from_buffer buffer format width height w = (r, w') →
  w_calls w' = w_calls w ++ [EvMap (buf_loc buffer); EvUnmap (buf_loc buffer)]
  ∧ unmap_count (buf_loc buffer) (w_calls w')
    = S (unmap_count (buf_loc buffer) (w_calls w)).
Proof.
  intros Hm Hrun. rewrite get_numpy_from_buffer_mapped in Hrun by done.
  pose proof (dispatch_extends format (mapping buffer w) width height
                (mapped_world buffer w)) as [_ Hc].
  destruct (dispatch format (mapping buffer w) width height
              (mapped_world buffer w)) as [r1 w1].
  injection Hrun as _ <-. simpl in *.
  assert (Ht : w_calls w1 ++ [EvUnmap (buf_loc buffer)]
               = w_calls w ++ [EvMap (buf_loc buffer); EvUnmap (buf_loc buffer)]).
  { rewrite Hc. simpl. by rewrite <- app_assoc. }
  split; [exact Ht|].
  rewrite Ht, unmap_count_app, unmap_count_map_unmap. lia.
Qed.

(** ** Substring facts *)

Lemma prefix_refl (s : string) : String.prefix s s = true.
Proof.
  induction s as [|c s IH]; simpl; [done|].
  destruct (ascii_dec c c); [exact IH | congruence].
Qed.

Lemma str_in_unfold (needle hay : string) :
  str_in needle hay
  = String.prefix needle hay
    || match hay with
       | EmptyString => false
       | String _ hay' => str_in needle hay'
       end.
Proof. by destruct hay. Qed.

Lemma str_in_prefix (needle hay : string) :
  String.prefix needle hay = true → str_in needle hay = true.
Proof. intros H. rewrite str_in_unfold, H. done. Qed.

Lemma str_in_cons (needle : string) (c : ascii) (hay : string) :
  str_in needle hay = true → str_in needle (String c hay) = true.
Proof. intros H. rewrite str_in_unfold, H. apply orb_true_r. Qed.

Lemma str_in_append (p s : string) : str_in s (p +:+ s) = true.
Proof.
  induction p as [|c p IH]; simpl String.append.
  - apply str_in_prefix, prefix_refl.
  - by apply str_in_cons.
Qed.

(** C5. For a format that is none of RGB, NV12, YUYV and a buffer whose
    mapping succeeds, [get_numpy_from_buffer] raises the unsupported-format
    error, a [ValueError] whose message is "Unsupported format: " followed
    by the requested format; no array was made (the memory is as before),
    and [unmap] has been called by the time the error reaches the caller. *)
Theorem unsupported_format_raises buffer format width height w :
  format ≠ "RGB" → format ≠ "NV12" → format ≠ "YUYV" →
  buf_mappable buffer = true →
  ∃ e w',
    get_numpy_from_buffer buffer format width height w = (Raise e, w')
    ∧ e = Exn ValueError ("Unsupported format: " +:+ format)
    ∧ str_in format (exn_msg e) = true
    ∧ w_heap w' = w_heap w
    ∧ w_calls w'
      = w_calls w ++ [EvMap (buf_loc buffer); EvUnmap (buf_loc buffer)].
Proof.
  intros Hr Hn Hy Hm.
  exists (Exn ValueError ("Unsupported format: " +:+ format)).
  exists (World (w_heap w)
            (w_calls w ++ [EvMap (buf_loc buffer); EvUnmap (buf_loc buffer)])).
  repeat split.
  - rewrite get_numpy_from_buffer_mapped by done. unfold dispatch.
    rewrite FORMAT_HANDLERS_unknown by done.
    unfold raise, mapped_world. cbn [w_heap w_calls].
    by rewrite <- app_assoc.
  - cbn [exn_msg]. apply str_in_append.
Qed.

(** C6. When the buffer's [map] reports failure, [get_numpy_from_buffer]
    raises the buffer-map error ([ValueError "Buffer mapping failed"]),
    makes no array, and never calls [unmap]: the buffer has received the
    [map] call and nothing else. *)
Theorem map_failure_raises buffer format width height w :
  buf_mappable buffer = false →
  get_numpy_from_buffer buffer format width height w
  = (Raise (Exn ValueError "Buffer mapping failed"),
     World (w_heap w) (w_calls w ++ [EvMap (buf_loc buffer)]))
  ∧ unmap_count (buf_loc buffer) (w_calls w ++ [EvMap (buf_loc buffer)])
    = unmap_count (buf_loc buffer) (w_calls w).
Proof.
  intros Hm. split.
  - unfold get_numpy_from_buffer, bind, buffer_map. rewrite Hm. reflexivity.
  - rewrite unmap_count_app. unfold unmap_count at 2.
    rewrite filter_cons_False by (simpl; congruence). simpl. lia.
Qed.

(** ** Successful decoding *)

Lemma heap_block_fits (h : heap) (l : loc) :
  Z.of_nat (length (heap_block h l)) ≤ NPY_MAX_INTP.
Proof.
  unfold heap_block. destruct (h !! l) as [[bs|]|]; [|done..].
  by destruct (Z.leb_spec (Z.of_nat (length bs)) NPY_MAX_INTP).
Qed.

Lemma heap_block_lookup (h : heap) (l : loc) (bs : list byte) :
  h !! l = Some (Some bs) → Z.of_nat (length bs) ≤ NPY_MAX_INTP →
  heap_block h l = bs.
Proof.
  intros Hl Hfit. unfold heap_block. rewrite Hl.
  by destruct (Z.leb_spec (Z.of_nat (length bs)) NPY_MAX_INTP); [|lia].
Qed.

Lemma heap_block_new (h : heap) (bs : list byte) :
  Z.of_nat (length bs) ≤ NPY_MAX_INTP →
  heap_block (h ++ [Some bs]) (length h) = bs.
Proof. intros Hfit. apply heap_block_lookup; [|done]. by rewrite list_lookup_middle. Qed.

Lemma heap_block_old (h blocks : heap) (l : loc) :
  (l < length h)%nat → heap_block (h ++ blocks) l = heap_block h l.
Proof. intros Hl. unfold heap_block. by rewrite lookup_app_l. Qed.

Lemma take_drop_fits (n k : nat) (bs : list byte) :
  Z.of_nat (length bs) ≤ NPY_MAX_INTP →
  Z.of_nat (length (take n (drop k bs))) ≤ NPY_MAX_INTP.
Proof. intros H. rewrite length_take, length_drop. lia. Qed.

Lemma nd_bytes_fits (h : heap) (a : ndarray) :
  Z.of_nat (length (nd_bytes h a)) ≤ NPY_MAX_INTP.
Proof. apply take_drop_fits, heap_block_fits. Qed.

Lemma wrap_intp_id (z : Z) :
  NPY_MIN_INTP ≤ z ≤ NPY_MAX_INTP → wrap_intp z = z.
Proof.
  unfold wrap_intp, NPY_MIN_INTP, NPY_MAX_INTP. intros H.
  rewrite Z.mod_small by lia. lia.
Qed.

Lemma itemsize_range (dt : dtype) : 1 ≤ itemsize dt ≤ 8.
Proof. destruct dt; simpl; lia. Qed.

Lemma nonzero_prod_pos (shape : list Z) : 1 ≤ nonzero_prod shape.
Proof.
  induction shape as [|d shape IH]; simpl; [lia|].
  fold (nonzero_prod shape). nia.
Qed.

Lemma nonzero_prod_cons (d : Z) (shape : list Z) :
  nonzero_prod (d :: shape) = Z.max d 1 * nonzero_prod shape.
Proof. reflexivity. Qed.

Lemma prod_shape_cons (d : Z) (shape : list Z) :
  prod_shape (d :: shape) = d * prod_shape shape.
Proof. reflexivity. Qed.

Lemma prod_le_nonzero_prod (shape : list Z) :
  Forall (λ d, 0 ≤ d) shape → 0 ≤ prod_shape shape ≤ nonzero_prod shape.
Proof.
  induction 1 as [|d shape Hd _ IH]; [simpl; lia|].
  rewrite nonzero_prod_cons, prod_shape_cons.
  pose proof (nonzero_prod_pos shape). nia.
Qed.

Lemma dim_le_nonzero_prod (shape : list Z) :
  Forall (λ d, d ≤ nonzero_prod shape) shape.
Proof.
  induction shape as [|d shape IH]; [constructor|].
  rewrite nonzero_prod_cons. pose proof (nonzero_prod_pos shape).
  constructor; [nia|]. eapply Forall_impl; [exact IH|].
  intros x Hx. simpl in Hx. nia.
Qed.

(** The sizing loop passes exactly the shapes without a negative
    dimension whose non-zero dimensions, times the item size, stay within
    [npy_intp]. *)
Lemma dims_nbytes_ok (nbytes : Z) (shape : list Z) :
  1 ≤ nbytes → Forall (λ d, 0 ≤ d) shape →
  nbytes * nonzero_prod shape ≤ NPY_MAX_INTP →
  dims_nbytes nbytes shape = Ok (nbytes * nonzero_prod shape).
Proof.
  intros Hnb Hpos. revert nbytes Hnb.
  induction Hpos as [|d shape Hd _ IH]; intros nbytes Hnb Hfit.
  { simpl. f_equal. lia. }
  rewrite nonzero_prod_cons in *. pose proof (nonzero_prod_pos shape).
  cbn [dims_nbytes]. destruct (Z.eqb_spec d 0) as [->|Hnz].
  - rewrite IH by (try done; nia). f_equal. lia.
  - destruct (Z.ltb_spec d 0); [lia|].
    replace (Z.max d 1) with d in * by lia.
    destruct (Z.ltb_spec NPY_MAX_INTP (nbytes * d)); [nia|].
    rewrite IH by nia. f_equal. lia.
Qed.

Lemma dims_nbytes_inv (nbytes : Z) (shape : list Z) (r : Z) :
  1 ≤ nbytes ≤ NPY_MAX_INTP →
  dims_nbytes nbytes shape = Ok r →
  Forall (λ d, 0 ≤ d) shape ∧ nbytes * nonzero_prod shape ≤ NPY_MAX_INTP.
Proof.
  revert nbytes. induction shape as [|d shape IH]; intros nbytes Hnb Hrun.
  { split; [constructor | simpl; lia]. }
  rewrite nonzero_prod_cons. cbn [dims_nbytes] in Hrun.
  destruct (Z.eqb_spec d 0) as [->|Hnz].
  - apply IH in Hrun as [Hpos Hfit]; [|done].
    split; [by constructor | lia].
  - destruct (Z.ltb_spec d 0); [discriminate|].
    destruct (Z.ltb_spec NPY_MAX_INTP (nbytes * d)); [discriminate|].
    apply IH in Hrun as [Hpos Hfit]; [|nia].
    split; [constructor; [lia | done]|].
    replace (Z.max d 1) with d by lia. lia.
Qed.

Lemma in_intp_range (shape : list Z) (m : Z) :
  Forall (λ d, 0 ≤ d) shape → nonzero_prod shape ≤ m → m ≤ NPY_MAX_INTP →
  existsb (λ d, (d <? NPY_MIN_INTP) || (NPY_MAX_INTP <? d)) shape = false.
Proof.
  intros Hpos Hm Hmax.
  destruct (existsb _ shape) eqn:He; [|done].
  apply existsb_exists in He as (d & Hin & Hd). apply list_elem_of_In in Hin.
  rewrite Forall_forall in Hpos. specialize (Hpos d Hin).
  pose proof (dim_le_nonzero_prod shape) as Hle.
  rewrite Forall_forall in Hle. specialize (Hle d Hin). simpl in Hle.
  unfold NPY_MIN_INTP in Hd.
  apply orb_true_iff in Hd as [Hd|Hd]; [apply Z.ltb_lt in Hd|apply Z.ltb_lt in Hd];
    lia.
Qed.

Lemma np_ndarray_ok (shape : list Z) (dt : dtype) (v : bufview) :
  itemsize dt * prod_shape shape ≤ Z.of_nat (bv_len v) →
  Forall (λ d, 0 ≤ d) shape →
  itemsize dt * nonzero_prod shape ≤ NPY_MAX_INTP →
  np_ndarray shape dt v = Ok (NdArray shape dt (bv_loc v) (bv_off v)).
Proof.
  intros Hsz Hpos Hfit. unfold np_ndarray.
  pose proof (itemsize_range dt). pose proof (nonzero_prod_pos shape).
  pose proof (prod_le_nonzero_prod shape Hpos).
  rewrite (in_intp_range shape (itemsize dt * nonzero_prod shape)) by (done || nia).
  rewrite wrap_intp_id by (unfold NPY_MIN_INTP; nia).
  destruct (Z.ltb_spec (Z.of_nat (bv_len v)) (itemsize dt * prod_shape shape));
    [lia|].
  by rewrite dims_nbytes_ok by (done || lia).
Qed.

Lemma nd_bytes_length (h : heap) (a : ndarray) :
  (nd_off a + nd_nbytes a ≤ length (heap_block h (nd_loc a)))%nat →
  length (nd_bytes h a) = nd_nbytes a.
Proof.
  intros H. unfold nd_bytes. rewrite length_take, length_drop. lia.
Qed.

(** The copy shows the bytes the original showed when it was taken. *)
Lemma nd_bytes_copy (h : heap) (a : ndarray) (blocks : heap) :
  nd_bytes (h ++ Some (nd_bytes h a) :: blocks)
    (NdArray (nd_shape a) (nd_dtype a) (length h) 0)
  = nd_bytes h a.
Proof.
  unfold nd_bytes at 1. cbn [nd_loc nd_off].
  rewrite (heap_block_lookup _ _ (nd_bytes h a))
    by (by rewrite ?list_lookup_middle; try apply nd_bytes_fits).
  rewrite drop_0. unfold nd_nbytes at 1. cbn [nd_shape nd_dtype].
  fold (nd_nbytes a). unfold nd_bytes. rewrite take_take. f_equal. lia.
Qed.

Lemma handle_rgb_ok mi width height w :
  0 ≤ width → 0 ≤ height →
  height * width * 3 ≤ Z.of_nat (bv_len (mi_data mi)) →
  Z.max height 1 * Z.max width 1 * 3 ≤ NPY_MAX_INTP →
  let v := NdArray [height; width; 3] uint8
             (bv_loc (mi_data mi)) (bv_off (mi_data mi)) in
  handle_rgb mi width height w
  = (Ok (One (NdArray [height; width; 3] uint8 (length (w_heap w)) 0)),
     World (w_heap w ++ [Some (nd_bytes (w_heap w) v)]) (w_calls w)).
Proof.
  intros Hw Hh Hsz Hfit v. unfold handle_rgb, bind, lift.
  rewrite np_ndarray_ok; [reflexivity| | |].
  - unfold prod_shape, itemsize. simpl. lia.
  - repeat constructor; lia.
  - unfold nonzero_prod, itemsize. cbn [foldr].
    change (Z.max 3 1) with 3. lia.
Qed.

Lemma handle_yuyv_ok mi width height w :
  0 ≤ width → 0 ≤ height →
  height * width * 2 ≤ Z.of_nat (bv_len (mi_data mi)) →
  Z.max height 1 * Z.max width 1 * 2 ≤ NPY_MAX_INTP →
  let v := NdArray [height; width; 2] uint8
             (bv_loc (mi_data mi)) (bv_off (mi_data mi)) in
  handle_yuyv mi width height w
  = (Ok (One (NdArray [height; width; 2] uint8 (length (w_heap w)) 0)),
     World (w_heap w ++ [Some (nd_bytes (w_heap w) v)]) (w_calls w)).
Proof.
  intros Hw Hh Hsz Hfit v. unfold handle_yuyv, bind, lift.
  rewrite np_ndarray_ok; [reflexivity| | |].
  - unfold prod_shape, itemsize. simpl. lia.
  - repeat constructor; lia.
  - unfold nonzero_prod, itemsize. cbn [foldr].
    change (Z.max 2 1) with 2. lia.
Qed.

Lemma py_clamp_inside (len : nat) (n : Z) :
  0 ≤ n ≤ Z.of_nat len → py_clamp len n = Z.to_nat n.
Proof.
  intros H. unfold py_clamp.
  destruct (Z.ltb_spec n 0); [lia|]. f_equal. lia.
Qed.

(** The chroma plane asks no more of the sizing loop than the luma
    plane does. *)
Lemma chroma_sized (width height : Z) :
  0 ≤ width → 0 ≤ height →
  Z.max height 1 * Z.max width 1 ≤ NPY_MAX_INTP →
  Z.max (height `div` 2) 1 * Z.max (width `div` 2) 1 * 2 ≤ NPY_MAX_INTP.
Proof.
  intros Hw Hh Hfit.
  pose proof (Z.mul_div_le height 2 ltac:(lia)).
  pose proof (Z.mul_div_le width 2 ltac:(lia)).
  assert (0 ≤ height `div` 2) by (apply Z.div_pos; lia).
  assert (0 ≤ width `div` 2) by (apply Z.div_pos; lia).
  unfold NPY_MAX_INTP in *.
  destruct (Z.max_spec (height `div` 2) 1) as [[? ->]|[? ->]],
    (Z.max_spec (width `div` 2) 1) as [[? ->]|[? ->]],
    (Z.max_spec height 1) as [[? Eh]|[? Eh]],
    (Z.max_spec width 1) as [[? Ew]|[? Ew]];
    rewrite Eh, Ew in Hfit; nia.
Qed.

Lemma handle_nv12_ok mi width height w :
  0 ≤ width → 0 ≤ height →
  width * height + (height `div` 2) * (width `div` 2) * 2
    ≤ Z.of_nat (bv_len (mi_data mi)) →
  Z.max height 1 * Z.max width 1 ≤ NPY_MAX_INTP →
  let yv := NdArray [height; width] uint8
              (bv_loc (mi_data mi)) (bv_off (mi_data mi)) in
  let uvv := NdArray [height `div` 2; width `div` 2; 2] uint8
               (bv_loc (mi_data mi))
               (bv_off (mi_data mi) + Z.to_nat (width * height)) in
  let h1 := w_heap w ++ [Some (nd_bytes (w_heap w) yv)] in
  handle_nv12 mi width height w
  = (Ok (Two (NdArray [height; width] uint8 (length (w_heap w)) 0)
             (NdArray [height `div` 2; width `div` 2; 2] uint8
                (length h1) 0)),
     World (h1 ++ [Some (nd_bytes h1 uvv)]) (w_calls w)).
Proof.
  intros Hw Hh Hsz Hfit yv uvv h1. unfold handle_nv12, bind, lift.
  pose proof (chroma_sized width height Hw Hh Hfit) as Hfit2.
  assert (0 ≤ height `div` 2) by (apply Z.div_pos; lia).
  assert (0 ≤ width `div` 2) by (apply Z.div_pos; lia).
  assert (0 ≤ width * height) by nia.
  assert (0 ≤ height `div` 2 * (width `div` 2)) by nia.
  assert (Hc : py_clamp (bv_len (mi_data mi)) (width * height)
               = Z.to_nat (width * height)) by (apply py_clamp_inside; lia).
  rewrite np_ndarray_ok; [| | |].
  - unfold nd_copy at 1. cbn beta iota.
    rewrite np_ndarray_ok; [| | |].
    + unfold slice_from, slice_to. cbn [bv_len bv_loc bv_off].
      rewrite Hc. reflexivity.
    + unfold slice_from, prod_shape, itemsize. cbn [bv_len foldr].
      rewrite Hc. lia.
    + repeat constructor; lia.
    + unfold nonzero_prod, itemsize. cbn [foldr].
      change (Z.max 2 1) with 2. lia.
  - unfold slice_to, prod_shape, itemsize. cbn [bv_len foldr].
    rewrite Hc. lia.
  - repeat constructor; lia.
  - unfold nonzero_prod, itemsize. cbn [foldr]. lia.
Qed.

Lemma heap_block_missing (h : heap) (l : loc) :
  (length h ≤ l)%nat → heap_block h l = [].
Proof. intros Hl. unfold heap_block. by rewrite lookup_ge_None_2. Qed.

(** Copying an array leaves the block it was looking at as it was. *)
Lemma heap_block_copied (h : heap) (a : ndarray) :
  heap_block (h ++ [Some (nd_bytes h a)]) (nd_loc a) = heap_block h (nd_loc a).
Proof.
  destruct (decide (nd_loc a < length h)%nat) as [Hl|Hl].
  - by apply heap_block_old.
  - assert (Hb : heap_block h (nd_loc a) = [])
      by (apply heap_block_missing; lia).
    unfold nd_bytes. rewrite Hb, drop_nil, take_nil.
    destruct (decide (nd_loc a = length h)) as [->|Hne].
    + apply heap_block_lookup; [by rewrite list_lookup_middle | done].
    + apply heap_block_missing. rewrite length_app. simpl. lia.
Qed.

Lemma mapping_len buffer w :
  bv_len (mi_data (mapping buffer w))
  = length (heap_block (w_heap w) (buf_loc buffer)).
Proof. reflexivity. Qed.

Lemma decode_rgb_ok buffer width height w :
  buf_mappable buffer = true → 0 ≤ width → 0 ≤ height →
  height * width * 3 ≤ Z.of_nat (length (frame buffer w)) →
  Z.max height 1 * Z.max width 1 * 3 ≤ NPY_MAX_INTP →
  get_numpy_from_buffer buffer "RGB" width height w
  = (Ok (One (NdArray [height; width; 3] uint8 (length (w_heap w)) 0)),
     World (w_heap w
            ++ [Some (take (Z.to_nat (height * width * 3)) (frame buffer w))])
       (w_calls w ++ map_unmap buffer)).
Proof.
  intros Hm Hw Hh Hsz Hfit. rewrite get_numpy_from_buffer_mapped by done.
  unfold dispatch. rewrite FORMAT_HANDLERS_RGB.
  rewrite handle_rgb_ok by (try rewrite mapping_len; done).
  unfold mapped_world, map_unmap, frame. cbn [w_heap w_calls].
  rewrite <- app_assoc. unfold nd_bytes, nd_nbytes, mapping, prod_shape, itemsize.
  cbn [nd_shape nd_dtype nd_loc nd_off mi_data bv_loc bv_off foldr app].
  rewrite drop_0.
  by replace (1 * (height * (width * (3 * 1)))) with (height * width * 3)
    by lia.
Qed.

Lemma decode_yuyv_ok buffer width height w :
  buf_mappable buffer = true → 0 ≤ width → 0 ≤ height →
  height * width * 2 ≤ Z.of_nat (length (frame buffer w)) →
  Z.max height 1 * Z.max width 1 * 2 ≤ NPY_MAX_INTP →
  get_numpy_from_buffer buffer "YUYV" width height w
  = (Ok (One (NdArray [height; width; 2] uint8 (length (w_heap w)) 0)),
     World (w_heap w
            ++ [Some (take (Z.to_nat (height * width * 2)) (frame buffer w))])
       (w_calls w ++ map_unmap buffer)).
Proof.
  intros Hm Hw Hh Hsz Hfit. rewrite get_numpy_from_buffer_mapped by done.
  unfold dispatch. rewrite FORMAT_HANDLERS_YUYV.
  rewrite handle_yuyv_ok by (try rewrite mapping_len; done).
  unfold mapped_world, map_unmap, frame. cbn [w_heap w_calls].
  rewrite <- app_assoc. unfold nd_bytes, nd_nbytes, mapping, prod_shape, itemsize.
  cbn [nd_shape nd_dtype nd_loc nd_off mi_data bv_loc bv_off foldr app].
  rewrite drop_0.
  by replace (1 * (height * (width * (2 * 1)))) with (height * width * 2)
    by lia.
Qed.

Lemma decode_nv12_ok buffer width height w :
  buf_mappable buffer = true → 0 ≤ width → 0 ≤ height →
  width * height + (height `div` 2) * (width `div` 2) * 2
    ≤ Z.of_nat (length (frame buffer w)) →
  Z.max height 1 * Z.max width 1 ≤ NPY_MAX_INTP →
  get_numpy_from_buffer buffer "NV12" width height w
  = (Ok (Two (NdArray [height; width] uint8 (length (w_heap w)) 0)
             (NdArray [height `div` 2; width `div` 2; 2] uint8
                (S (length (w_heap w))) 0)),
     World (w_heap w
            ++ [Some (take (Z.to_nat (width * height)) (frame buffer w));
                Some (take (Z.to_nat ((height `div` 2) * (width `div` 2) * 2))
                        (drop (Z.to_nat (width * height)) (frame buffer w)))])
       (w_calls w ++ map_unmap buffer)).
Proof.
  intros Hm Hw Hh Hsz Hfit. rewrite get_numpy_from_buffer_mapped by done.
  unfold dispatch. rewrite FORMAT_HANDLERS_NV12.
  rewrite handle_nv12_ok by (try rewrite mapping_len; done).
  unfold mapped_world, map_unmap, frame. cbn [w_heap w_calls].
  rewrite <- !app_assoc. cbn [app].
  rewrite length_app, Nat.add_1_r. cbn [length].
  unfold mapping at 1 2 3. cbn [mi_data bv_loc bv_off].
  set (yv := NdArray [height; width] uint8 (buf_loc buffer) 0%nat).
  assert (Hy : nd_bytes (w_heap w) yv
               = take (Z.to_nat (width * height))
                   (heap_block (w_heap w) (buf_loc buffer))).
  { unfold nd_bytes, nd_nbytes, yv, mapping, prod_shape, itemsize.
    cbn [nd_shape nd_dtype nd_loc nd_off mi_data bv_loc bv_off foldr].
    rewrite drop_0. f_equal. lia. }
  unfold nd_bytes at 2. unfold nd_nbytes, prod_shape, itemsize.
  cbn [nd_shape nd_dtype nd_loc nd_off mi_data bv_loc bv_off foldr mapping].
  change (buf_loc buffer) with (nd_loc yv) at 4.
  rewrite heap_block_copied. cbn [nd_loc yv mapping mi_data bv_loc].
  rewrite Hy, Nat.add_0_l.
  by replace (1 * (height `div` 2 * (width `div` 2 * (2 * 1))))
    with ((height `div` 2) * (width `div` 2) * 2) by lia.
Qed.

(** The handler's own plane sizes, [width * height] and
    [width * height // 2], are enough as well: the chroma shape never asks
    for more than the second. *)
Lemma chroma_within_uv_plane_size (width height : Z) :
  0 ≤ width → 0 ≤ height →
  (height `div` 2) * (width `div` 2) * 2 ≤ (width * height) `div` 2.
Proof.
  intros Hw Hh. apply Z.div_le_lower_bound; [lia|].
  pose proof (Z.mul_div_le height 2 ltac:(lia)).
  pose proof (Z.mul_div_le width 2 ltac:(lia)).
  assert (0 ≤ height `div` 2) by (apply Z.div_pos; lia).
  assert (0 ≤ width `div` 2) by (apply Z.div_pos; lia).
  nia.
Qed.

Lemma decode_nv12_plane_sizes buffer width height w :
  buf_mappable buffer = true → 0 ≤ width → 0 ≤ height →
  Z.of_nat (length (frame buffer w))
  = width * height + (width * height) `div` 2 →
  Z.max height 1 * Z.max width 1 ≤ NPY_MAX_INTP →
  ∃ w',
    get_numpy_from_buffer buffer "NV12" width height w
    = (Ok (Two (NdArray [height; width] uint8 (length (w_heap w)) 0)
               (NdArray [height `div` 2; width `div` 2; 2] uint8
                  (S (length (w_heap w))) 0)), w').
Proof.
  intros Hm Hw Hh Hlen Hfit. eexists. apply decode_nv12_ok; try done.
  pose proof (chroma_within_uv_plane_size width height Hw Hh). lia.
Qed.

Lemma heap_block_new2 (h : heap) (x : option (list byte)) (bs : list byte) :
  Z.of_nat (length bs) ≤ NPY_MAX_INTP →
  heap_block (h ++ [x; Some bs]) (S (length h)) = bs.
Proof.
  intros Hfit. apply heap_block_lookup; [|done]. rewrite lookup_app_r by lia.
  by replace (S (length h) - length h)%nat with 1%nat by lia.
Qed.

Lemma heap_block_new1 (h : heap) (bs : list byte) (rest : heap) :
  Z.of_nat (length bs) ≤ NPY_MAX_INTP →
  heap_block (h ++ Some bs :: rest) (length h) = bs.
Proof.
  intros Hfit. apply heap_block_lookup; [|done]. by rewrite list_lookup_middle.
Qed.

Lemma frame_fits buffer w :
  Z.of_nat (length (frame buffer w)) ≤ NPY_MAX_INTP.
Proof. apply heap_block_fits. Qed.

Lemma frame_slice_fits buffer w (n k : nat) :
  Z.of_nat (length (take n (drop k (frame buffer w)))) ≤ NPY_MAX_INTP.
Proof. apply take_drop_fits, frame_fits. Qed.

Lemma frame_take_fits buffer w (n : nat) :
  Z.of_nat (length (take n (frame buffer w))) ≤ NPY_MAX_INTP.
Proof. rewrite <- (drop_0 (frame buffer w)). apply frame_slice_fits. Qed.

Lemma frame_bytes_RGB width height :
  frame_bytes "RGB" width height = height * width * 3.
Proof. reflexivity. Qed.

Lemma frame_bytes_NV12 width height :
  frame_bytes "NV12" width height
  = height * width + (height `div` 2) * (width `div` 2) * 2.
Proof. reflexivity. Qed.

Lemma frame_bytes_YUYV width height :
  frame_bytes "YUYV" width height = height * width * 2.
Proof. reflexivity. Qed.

Lemma chroma_nonneg (width height : Z) :
  0 ≤ width → 0 ≤ height → 0 ≤ (height `div` 2) * (width `div` 2) * 2.
Proof.
  intros Hw Hh.
  assert (0 ≤ height `div` 2) by (apply Z.div_pos; lia).
  assert (0 ≤ width `div` 2) by (apply Z.div_pos; lia).
  nia.
Qed.

(** C1 as stated fails. With height 0 the frame has no bytes whatever the
    width, and an empty buffer is then of the exact length, but numpy still
    has to size the other dimensions: for width 2^63-1 the row of an RGB
    frame is beyond [npy_intp] and the call raises. And nothing keeps width
    and height from being negative: for -1 by -1 the 3-byte buffer is of
    the exact length, and the call raises. *)
Lemma decode_shapes_counterexample :
  (Z.of_nat (length (frame buffer0 world_empty))
   = frame_bytes "RGB" 9223372036854775807 0
   ∧ get_numpy_from_buffer buffer0 "RGB" 9223372036854775807 0 world_empty
     = (Raise (Exn ValueError
                 "array is too big; `arr.size * arr.dtype.itemsize` is larger than the maximum possible size."),
        World [Some []] [EvMap 0; EvUnmap 0]))
  ∧ (Z.of_nat (length (frame buffer0 world3)) = frame_bytes "RGB" (-1) (-1)
     ∧ get_numpy_from_buffer buffer0 "RGB" (-1) (-1) world3
       = (Raise (Exn ValueError "negative dimensions are not allowed"),
          World [Some (byte_seq 3)] [EvMap 0; EvUnmap 0])).
Proof. repeat split; reflexivity. Qed.

(** C1, amended. For each of RGB, NV12 and YUYV, and every width and
    height that are not negative, decoding a buffer whose mapped length is
    exactly the bytes of such a frame returns arrays of unsigned 8-bit
    elements, each holding as many of them as its shape says, of shape
    (height, width, 3) for RGB, the pair (height, width) and
    (height/2, width/2, 2) for NV12, and (height, width, 2) for YUYV;
    provided, when width or height is 0, that numpy can still size the
    arrays: the frame with the 0 counted as 1 has at most 2^63-1 bytes.
    Positive width and height need no proviso. *)
Theorem decode_shapes_sized buffer format width height w :
  format = "RGB" ∨ format = "NV12" ∨ format = "YUYV" →
  0 ≤ width → 0 ≤ height →
  (width = 0 ∨ height = 0 →
   frame_bytes format (Z.max width 1) (Z.max height 1) ≤ NPY_MAX_INTP) →
  buf_mappable buffer = true →
  Z.of_nat (length (frame buffer w)) = frame_bytes format width height →
  ∃ r w',
    get_numpy_from_buffer buffer format width height w = (Ok r, w')
    ∧ Forall (λ a, nd_dtype a = uint8
                   ∧ Z.of_nat (length (nd_bytes (w_heap w') a))
                     = prod_shape (nd_shape a))
        (decoded_arrays r)
    ∧ (format = "RGB" →
       ∃ a, r = One a ∧ nd_shape a = [height; width; 3])
    ∧ (format = "NV12" →
       ∃ y uv, r = Two y uv ∧ nd_shape y = [height; width]
               ∧ nd_shape uv = [height `div` 2; width `div` 2; 2])
    ∧ (format = "YUYV" →
       ∃ a, r = One a ∧ nd_shape a = [height; width; 2]).
Proof.
  intros Hf Hw Hh Hzero Hm Hlen.
  assert (Hfit : frame_bytes format (Z.max width 1) (Z.max height 1)
                 ≤ NPY_MAX_INTP).
  { destruct (decide (width = 0 ∨ height = 0)) as [Hz|Hz]; [by apply Hzero|].
    rewrite !Z.max_l by lia. rewrite <- Hlen. apply frame_fits. }
  clear Hzero.
  assert (0 ≤ height `div` 2) by (apply Z.div_pos; lia).
  assert (0 ≤ width `div` 2) by (apply Z.div_pos; lia).
  assert (0 ≤ width * height) by nia.
  assert (0 ≤ height `div` 2 * (width `div` 2)) by nia.
  destruct Hf as [-> | [-> | ->]];
    rewrite ?frame_bytes_RGB, ?frame_bytes_NV12, ?frame_bytes_YUYV in Hlen, Hfit.
  - eexists _, _. split; [apply decode_rgb_ok; (done || lia)|].
    split; [|split; [eauto|split; [discriminate|discriminate]]].
    repeat constructor. cbn [w_heap]. unfold nd_bytes, nd_nbytes.
    cbn [nd_shape nd_dtype nd_loc nd_off].
    rewrite heap_block_new by apply frame_take_fits.
    rewrite drop_0, !length_take. unfold prod_shape, itemsize.
    cbn [foldr]. lia.
  - pose proof (chroma_nonneg (Z.max width 1) (Z.max height 1)
                  ltac:(lia) ltac:(lia)).
    eexists _, _. split; [apply decode_nv12_ok; (done || lia)|].
    split; [|split; [discriminate|split; [eauto|discriminate]]].
    repeat constructor; cbn [w_heap]; unfold nd_bytes, nd_nbytes;
      cbn [nd_shape nd_dtype nd_loc nd_off].
    + rewrite heap_block_new1 by apply frame_take_fits.
      rewrite drop_0, !length_take.
      unfold prod_shape, itemsize. cbn [foldr]. lia.
    + rewrite heap_block_new2 by apply frame_slice_fits.
      rewrite drop_0, !length_take, length_drop.
      unfold prod_shape, itemsize. cbn [foldr]. lia.
  - eexists _, _. split; [apply decode_yuyv_ok; (done || lia)|].
    split; [|split; [discriminate|split; [discriminate|eauto]]].
    repeat constructor. cbn [w_heap]. unfold nd_bytes, nd_nbytes.
    cbn [nd_shape nd_dtype nd_loc nd_off].
    rewrite heap_block_new by apply frame_take_fits.
    rewrite drop_0, !length_take. unfold prod_shape, itemsize.
    cbn [foldr]. lia.
Qed.

(** C2. Width 4, height 2, NV12, a 12-byte buffer: the call returns a
    pair; the luma array has shape (2, 4) and is the first 8 bytes laid out
    row by row, the chroma array has shape (1, 2, 2) and is the last 4
    bytes laid out row by row (luma is the bytes before offset
    width*height, chroma the bytes from there on). *)
Theorem decode_nv12_4x2 buffer w b0 b1 b2 b3 b4 b5 b6 b7 c0 c1 c2 c3 :
  buf_mappable buffer = true →
  frame buffer w = [b0; b1; b2; b3; b4; b5; b6; b7; c0; c1; c2; c3] →
  ∃ y uv w',
    get_numpy_from_buffer buffer "NV12" 4 2 w = (Ok (Two y uv), w')
    ∧ nd_shape y = [2; 4] ∧ nd_shape uv = [1; 2; 2]
    ∧ nd_bytes (w_heap w') y = take 8 (frame buffer w)
    ∧ nd_bytes (w_heap w') uv = drop 8 (frame buffer w)
    ∧ nd_item (w_heap w') y [0] = Some [b0; b1; b2; b3]
    ∧ nd_item (w_heap w') y [1] = Some [b4; b5; b6; b7]
    ∧ nd_item (w_heap w') y [1; 2] = Some [b6]
    ∧ nd_item (w_heap w') uv [0; 0] = Some [c0; c1]
    ∧ nd_item (w_heap w') uv [0; 1] = Some [c2; c3]
    ∧ nd_item (w_heap w') uv [0; 1; 0] = Some [c2].
Proof.
  intros Hm Hf. eexists _, _, _.
  split; [apply decode_nv12_ok; try done; by rewrite Hf|].
  cbn [w_heap].
  unfold nd_item, nd_bytes, nd_nbytes. cbn [nd_shape nd_dtype nd_loc nd_off].
  rewrite heap_block_new1 by apply frame_take_fits.
  rewrite heap_block_new2 by apply frame_slice_fits.
  rewrite Hf.
  repeat split; reflexivity.
Qed.

(** C9. Width 4, height 2, RGB, a 24-byte buffer holding 0..23: the call
    returns one array of shape (2, 4, 3) with result[0,0] = [0,1,2] and
    result[1,3] = [21,22,23]. *)
Theorem decode_rgb_4x2 buffer w :
  buf_mappable buffer = true →
  frame buffer w = byte_seq 24 →
  ∃ a w',
    get_numpy_from_buffer buffer "RGB" 4 2 w = (Ok (One a), w')
    ∧ nd_shape a = [2; 4; 3]
    ∧ nd_dtype a = uint8
    ∧ nd_bytes (w_heap w') a = byte_seq 24
    ∧ nd_item (w_heap w') a [0; 0] = Some [u8 0; u8 1; u8 2]
    ∧ nd_item (w_heap w') a [1; 3] = Some [u8 21; u8 22; u8 23].
Proof.
  intros Hm Hf. eexists _, _.
  split; [apply decode_rgb_ok; try done; by rewrite Hf|].
  cbn [w_heap].
  unfold nd_item, nd_bytes, nd_nbytes. cbn [nd_shape nd_dtype nd_loc nd_off].
  rewrite heap_block_new by apply frame_take_fits.
  rewrite Hf.
  repeat split; reflexivity.
Qed.

(** ** Independence of the returned arrays *)

(** A shape numpy made an array of has no negative dimension, and its
    non-zero dimensions, times the item size, fit [npy_intp]. *)
Lemma np_ndarray_sized (shape : list Z) (dt : dtype) (v : bufview)
    (a : ndarray) :
  np_ndarray shape dt v = Ok a →
  Forall (λ d, 0 ≤ d) shape
  ∧ itemsize dt * nonzero_prod shape ≤ NPY_MAX_INTP.
Proof.
  unfold np_ndarray. destruct (existsb _ shape); [discriminate|].
  destruct (_ <? _); [discriminate|].
  destruct (dims_nbytes (itemsize dt) shape) as [r|] eqn:Hd; [|discriminate].
  intros _. eapply dims_nbytes_inv; [|exact Hd].
  pose proof (itemsize_range dt). unfold NPY_MAX_INTP. lia.
Qed.

Lemma np_ndarray_inv (shape : list Z) (dt : dtype) (v : bufview) (a : ndarray) :
  np_ndarray shape dt v = Ok a →
  a = NdArray shape dt (bv_loc v) (bv_off v)
  ∧ itemsize dt * prod_shape shape ≤ Z.of_nat (bv_len v).
Proof.
  intros Hrun. pose proof (np_ndarray_sized _ _ _ _ Hrun) as [Hpos Hfit].
  revert Hrun. unfold np_ndarray.
  destruct (existsb _ shape); [discriminate|].
  pose proof (itemsize_range dt). pose proof (nonzero_prod_pos shape).
  pose proof (prod_le_nonzero_prod shape Hpos).
  rewrite wrap_intp_id by (unfold NPY_MIN_INTP; nia).
  destruct (Z.ltb_spec (Z.of_nat (bv_len v)) (itemsize dt * prod_shape shape));
    [discriminate|].
  destruct (dims_nbytes _ _); [|discriminate].
  intros [= <-]. done.
Qed.

Lemma py_clamp_le (len : nat) (n : Z) : (py_clamp len n ≤ len)%nat.
Proof. unfold py_clamp. destruct (Z.ltb_spec n 0); lia. Qed.

Lemma handle_rgb_copied_out mi width height w r w' :
  handle_rgb mi width height w = (Ok r, w') →
  Forall (copied_out w mi) (decoded_arrays r).
Proof.
  unfold handle_rgb, bind, lift.
  destruct (np_ndarray _ _ _) as [v|] eqn:Hv; [|discriminate].
  apply np_ndarray_inv in Hv as [-> Hsz]. intros [= <- <-].
  repeat constructor; unfold nd_nbytes;
    cbn [nd_loc nd_shape nd_dtype w_heap decoded_arrays]; lia.
Qed.

Lemma handle_yuyv_copied_out mi width height w r w' :
  handle_yuyv mi width height w = (Ok r, w') →
  Forall (copied_out w mi) (decoded_arrays r).
Proof.
  unfold handle_yuyv, bind, lift.
  destruct (np_ndarray _ _ _) as [v|] eqn:Hv; [|discriminate].
  apply np_ndarray_inv in Hv as [-> Hsz]. intros [= <- <-].
  repeat constructor; unfold nd_nbytes;
    cbn [nd_loc nd_shape nd_dtype w_heap decoded_arrays]; lia.
Qed.

Lemma handle_nv12_copied_out mi width height w r w' :
  handle_nv12 mi width height w = (Ok r, w') →
  Forall (copied_out w mi) (decoded_arrays r).
Proof.
  unfold handle_nv12, bind, lift.
  destruct (np_ndarray _ _ (slice_to _ _)) as [yv|] eqn:Hy; [|discriminate].
  cbn beta iota.
  destruct (np_ndarray _ _ (slice_from _ _)) as [uvv|] eqn:Huv; [|discriminate].
  apply np_ndarray_inv in Hy as [-> Hy], Huv as [-> Huv].
  intros [= <- <-].
  pose proof (py_clamp_le (bv_len (mi_data mi)) (width * height)).
  repeat constructor; unfold nd_nbytes; cbn [nd_loc nd_shape nd_dtype w_heap];
    cbn [slice_to slice_from bv_len] in *; try rewrite length_app; lia.
Qed.

Lemma dispatch_copied_out format mi width height w r w' :
  dispatch format mi width height w = (Ok r, w') →
  Forall (copied_out w mi) (decoded_arrays r).
Proof.
  unfold dispatch. destruct (FORMAT_HANDLERS !! format) as [h|] eqn:Hl;
    [|discriminate].
  destruct (FORMAT_HANDLERS_inv _ _ Hl) as [[_ ->]|[[_ ->]|[_ ->]]].
  - apply handle_rgb_copied_out.
  - apply handle_nv12_copied_out.
  - apply handle_yuyv_copied_out.
Qed.

Lemma heap_block_insert_ne (h : heap) (l l' : loc) (x : option (list byte)) :
  l ≠ l' → heap_block (<[l:=x]> h) l' = heap_block h l'.
Proof. intros Hne. unfold heap_block. by rewrite list_lookup_insert_ne. Qed.

Lemma nd_bytes_empty (h h' : heap) (a : ndarray) :
  nd_nbytes a = 0%nat → nd_bytes h a = nd_bytes h' a.
Proof. intros Hz. unfold nd_bytes. by rewrite Hz. Qed.

(** C3. The arrays a successful call returns are copies: overwriting the
    bytes of the source buffer with anything ([Some bytes]) or releasing
    them ([None]) after the call leaves what the arrays hold unchanged. *)
Theorem decoded_arrays_independent buffer format width height w r w'
    (after : option (list byte)) :
  get_numpy_from_buffer buffer format width height w = (Ok r, w') →
  Forall (λ a, nd_bytes (<[buf_loc buffer := after]> (w_heap w')) a
               = nd_bytes (w_heap w') a)
    (decoded_arrays r).
Proof.
  intros Hrun.
  destruct (buf_mappable buffer) eqn:Hm.
  2: { pose proof (map_failure_raises buffer format width height w Hm)
         as [Hf _]. congruence. }
  rewrite get_numpy_from_buffer_mapped in Hrun by done.
  destruct (dispatch _ _ _ _ _) as [r1 w1] eqn:Hd.
  injection Hrun as -> <-. cbn [w_heap].
  apply dispatch_copied_out in Hd. eapply Forall_impl; [exact Hd|].
  intros a [Hloc Hsz]. cbn [mapped_world w_heap] in Hloc.
  rewrite mapping_len in Hsz.
  destruct (decide (buf_loc buffer < length (w_heap w))%nat) as [Hin|Hout].
  - unfold nd_bytes. rewrite heap_block_insert_ne by lia. done.
  - apply nd_bytes_empty.
    rewrite heap_block_missing in Hsz by lia. simpl in Hsz. lia.
Qed.

(** Without the copy there is no such guarantee: the view numpy builds on
    the mapping shows whatever the buffer holds. *)
Example view_follows_buffer :
  ∃ v, np_ndarray [3] uint8 (BufView 0 0 3) = Ok v
       ∧ nd_bytes [Some [u8 1; u8 2; u8 3]] v = [u8 1; u8 2; u8 3]
       ∧ nd_bytes (<[0%nat := Some [u8 9; u8 9; u8 9]]> [Some [u8 1; u8 2; u8 3]]) v
         = [u8 9; u8 9; u8 9].
Proof. eexists. repeat split. Qed.

(** ** The caps accessor *)

Lemma get_caps_from_pad_no_caps (pad : GstPad) :
  get_current_caps pad = None →
  get_caps_from_pad pad = RetTuple [PyNone; PyNone; PyNone].
Proof. intros H. unfold get_caps_from_pad. by rewrite H. Qed.

Lemma get_caps_from_pad_structure (pad : GstPad) caps structure :
  get_current_caps pad = Some caps → caps_truthy caps = true →
  get_structure caps 0 = Some structure →
  structure_truthy structure = true →
  get_caps_from_pad pad
  = RetTuple [get_value structure "format"; get_value structure "width";
              get_value structure "height"].
Proof.
  intros Hc Ht Hs Hst. unfold get_caps_from_pad. by rewrite Hc, Ht, Hs, Hst.
Qed.

(** C8, at the input where it fails: with caps but no structure the inner
    [if] is not taken, the function body ends, and the caller gets [None]
    where a 3-tuple was promised. *)
Theorem get_caps_from_pad_without_structure :
  get_caps_from_pad pad_without_structure = RetNone
  ∧ ¬ is_triple (get_caps_from_pad pad_without_structure).
Proof.
  split; [reflexivity|]. intros (a & b & c & H). discriminate H.
Qed.

(** ** The probes *)

Lemma detect_pkg_installed_exit (os : host) pkg_name rc out err p :
  os (dpkg_args pkg_name) = Exited rc out err →
  detect_pkg_installed os pkg_name p = (Ok (rc =? 0), p).
Proof.
  intros H. unfold detect_pkg_installed, try_except, bind,
    subprocess_check_output, lift. fold (dpkg_args pkg_name). rewrite H.
  by destruct (rc =? 0).
Qed.

(** [detect_hailo_arch] hands every failure back as [None]. *)
Lemma detect_hailo_arch_returns (os : host) p :
  ∃ v p', detect_hailo_arch os p = (Ok v, p').
Proof.
  unfold detect_hailo_arch, try_except, bind, subprocess_run, lift.
  destruct (os _) as [e|rc out err]; simpl; [by eexists _, _|].
  destruct (negb (rc =? 0)); simpl; [by eexists _, _|].
  destruct (scan_lines _); simpl; by eexists _, _.
Qed.

Lemma detect_hailo_arch_failed (os : host) e p :
  os hailortcli_args = Failed e →
  ∃ p', detect_hailo_arch os p = (Ok None, p').
Proof.
  intros H. unfold detect_hailo_arch, try_except, bind, subprocess_run, lift.
  fold hailortcli_args. rewrite H. simpl. by eexists.
Qed.

Lemma detect_hailo_arch_nonzero (os : host) rc out err p :
  os hailortcli_args = Exited rc out err → rc ≠ 0 →
  ∃ p', detect_hailo_arch os p = (Ok None, p').
Proof.
  intros H Hrc. unfold detect_hailo_arch, try_except, bind, subprocess_run, lift.
  fold hailortcli_args. rewrite H. simpl.
  destruct (Z.eqb_spec rc 0); [done|]. simpl. by eexists.
Qed.

(** C7, at the input where it fails: [detect_pkg_installed] only handles
    [CalledProcessError], so when the executable is missing the
    [FileNotFoundError] of the spawn reaches the caller. *)
Theorem detect_pkg_installed_missing_executable :
  detect_pkg_installed host_without_dpkg "hailort" []
  = (Raise (Exn FileNotFoundError
              "[Errno 2] No such file or directory: 'dpkg'"), []).
Proof. reflexivity. Qed.

(** ** Telling HAILO8L from HAILO8 *)

Lemma prefix_app_l (a b s : string) :
  String.prefix (a +:+ b) s = true → String.prefix a s = true.
Proof.
  revert s. induction a as [|c a IH]; intros s; [by destruct s|].
  destruct s as [|d s]; simpl; [done|].
  destruct (ascii_dec c d); [apply IH | done].
Qed.

Lemma str_in_app_l (a b s : string) :
  str_in (a +:+ b) s = true → str_in a s = true.
Proof.
  induction s as [|d s IH].
  - rewrite (str_in_unfold (a +:+ b) EmptyString),
      (str_in_unfold a EmptyString).
    intros [Hp|Hr]%orb_true_iff; [|done].
    by rewrite (prefix_app_l _ _ _ Hp).
  - rewrite (str_in_unfold (a +:+ b) (String d s)),
      (str_in_unfold a (String d s)).
    intros [Hp|Hr]%orb_true_iff.
    + by rewrite (prefix_app_l _ _ _ Hp).
    + rewrite (IH Hr). apply orb_true_r.
Qed.

(** Every line that has HAILO8L has HAILO8 as well, so the order of the
    two tests in the loop body matters. *)
Lemma str_in_HAILO8L (line : string) :
  str_in "HAILO8L" line = true → str_in "HAILO8" line = true.
Proof. apply (str_in_app_l "HAILO8" "L"). Qed.

Lemma scan_lines_HAILO8L (line : string) (rest : list string) :
  str_in "Device Architecture" line = true →
  str_in "HAILO8L" line = true →
  scan_lines (line :: rest) = Some "hailo8l".
Proof. intros Hd Hl. cbn [scan_lines]. by rewrite Hd, Hl. Qed.

Lemma scan_lines_first (pre : list string) (line : string)
    (post : list string) :
  Forall not_plain_HAILO8 pre →
  str_in "Device Architecture" line = true →
  str_in "HAILO8L" line = true →
  scan_lines (pre ++ line :: post) = Some "hailo8l".
Proof.
  intros Hpre Hd Hl. induction Hpre as [|l pre Hl0 _ IH].
  - by apply scan_lines_HAILO8L.
  - cbn [app scan_lines].
    destruct (str_in "Device Architecture" l) eqn:Hd0; [|exact IH].
    destruct (str_in "HAILO8L" l) eqn:Hl1; [done|].
    destruct (str_in "HAILO8" l) eqn:Hl2; [|exact IH].
    specialize (Hl0 Hd0 Hl2). congruence.
Qed.

(** C10 as stated fails: the loop answers at the first line it can
    classify, so an earlier plain HAILO8 line wins over a later HAILO8L
    one; and when hailortcli exits with an error its output is not looked
    at. *)
Lemma detect_hailo_arch_counterexample :
  (∃ line, line ∈ split_nl two_devices
           ∧ str_in "Device Architecture" line = true
           ∧ str_in "HAILO8L" line = true)
  ∧ detect_hailo_arch (λ _, Exited 0 two_devices "") []
    = (Ok (Some "hailo8"), [])
  ∧ detect_hailo_arch (λ _, Exited 1 "Device Architecture: HAILO8L" "") []
    = (Ok None, ["Error running hailortcli: "]).
Proof.
  split; [|split; reflexivity].
  exists "Device Architecture: HAILO8L". split; [|split; reflexivity].
  vm_compute. apply list_elem_of_further, list_elem_of_here.
Qed.

(** C10, amended. When hailortcli exits with status 0 and some line of its
    output contains both "Device Architecture" and "HAILO8L", and no line
    before it contains "Device Architecture" and "HAILO8" without
    "HAILO8L", [detect_hailo_arch] returns "hailo8l", not "hailo8", and
    prints nothing: on a line the HAILO8L test comes first, though HAILO8
    is there too. *)
Theorem detect_hailo_arch_hailo8l (os : host) out err pre line post p :
  os hailortcli_args = Exited 0 out err →
  split_nl out = pre ++ line :: post →
  Forall not_plain_HAILO8 pre →
  str_in "Device Architecture" line = true →
  str_in "HAILO8L" line = true →
  detect_hailo_arch os p = (Ok (Some "hailo8l"), p)
  ∧ str_in "HAILO8" line = true
  ∧ detect_hailo_arch os p ≠ (Ok (Some "hailo8"), p).
Proof.
  intros Hos Hsplit Hpre Hd Hl.
  assert (Hrun : detect_hailo_arch os p = (Ok (Some "hailo8l"), p)).
  { unfold detect_hailo_arch, try_except, bind, subprocess_run, lift.
    fold hailortcli_args. rewrite Hos. cbn [returncode stdout stderr].
    rewrite Hsplit, (scan_lines_first pre line post Hpre Hd Hl).
    reflexivity. }
  split; [exact Hrun|]. split; [by apply str_in_HAILO8L|].
  rewrite Hrun. intros [=].
Qed.

(** ** Concrete runs *)

Example exit_normal :
  get_numpy_from_buffer buffer0 "YUYV" 4 2 world24
  = (Ok (One (NdArray [2; 4; 2] uint8 1 0)),
     World [Some (byte_seq 24); Some (byte_seq 16)] [EvMap 0; EvUnmap 0]).
Proof. reflexivity. Qed.

Example exit_unsupported_format :
  get_numpy_from_buffer buffer0 "FOO" 4 2 world24
  = (Raise (Exn ValueError "Unsupported format: FOO"),
     World [Some (byte_seq 24)] [EvMap 0; EvUnmap 0]).
Proof. reflexivity. Qed.

Example exit_handler_too_small :
  get_numpy_from_buffer buffer0 "RGB" 5 2 world24
  = (Raise (Exn TypeError "buffer is too small for requested array"),
     World [Some (byte_seq 24)] [EvMap 0; EvUnmap 0]).
Proof. reflexivity. Qed.

Example exit_handler_negative :
  get_numpy_from_buffer buffer0 "RGB" (-1) (-1) world24
  = (Raise (Exn ValueError "negative dimensions are not allowed"),
     World [Some (byte_seq 24)] [EvMap 0; EvUnmap 0]).
Proof. reflexivity. Qed.

Example exit_map_failure :
  get_numpy_from_buffer unmappable0 "RGB" 4 2 world24
  = (Raise (Exn ValueError "Buffer mapping failed"),
     World [Some (byte_seq 24)] [EvMap 0]).
Proof. reflexivity. Qed.

(** An odd-sized NV12 frame: the chroma plane is 1x2x2, and the bytes the
    handler's own [uv_plane_size] counts beyond that are not needed. *)
Example nv12_5x3 :
  get_numpy_from_buffer buffer0 "NV12" 5 3 world19
  = (Ok (Two (NdArray [3; 5] uint8 1 0) (NdArray [1; 2; 2] uint8 2 0)),
     World [Some (byte_seq 19); Some (byte_seq 15);
            Some [u8 15; u8 16; u8 17; u8 18]]
       [EvMap 0; EvUnmap 0]).
Proof. reflexivity. Qed.

Lemma decode_shapes_sized_witness :
  ∃ r w',
    get_numpy_from_buffer buffer0 "NV12" 5 3 world19 = (Ok r, w')
    ∧ Forall (λ a, nd_dtype a = uint8
                   ∧ Z.of_nat (length (nd_bytes (w_heap w') a))
                     = prod_shape (nd_shape a))
        (decoded_arrays r)
    ∧ ("NV12" = "RGB" → ∃ a, r = One a ∧ nd_shape a = [3; 5; 3])
    ∧ ("NV12" = "NV12" →
       ∃ y uv, r = Two y uv ∧ nd_shape y = [3; 5]
               ∧ nd_shape uv = [3 `div` 2; 5 `div` 2; 2])
    ∧ ("NV12" = "YUYV" → ∃ a, r = One a ∧ nd_shape a = [3; 5; 2]).
Proof.
  apply (decode_shapes_sized buffer0 "NV12" 5 3 world19);
    [right; left; reflexivity | lia | lia | intros _; vm_compute; discriminate
    | reflexivity | reflexivity].
Defined.

Lemma decode_nv12_4x2_witness :
  ∃ y uv w',
    get_numpy_from_buffer buffer0 "NV12" 4 2 world12 = (Ok (Two y uv), w')
    ∧ nd_shape y = [2; 4] ∧ nd_shape uv = [1; 2; 2]
    ∧ nd_bytes (w_heap w') y = take 8 (frame buffer0 world12)
    ∧ nd_bytes (w_heap w') uv = drop 8 (frame buffer0 world12)
    ∧ nd_item (w_heap w') y [0] = Some [u8 0; u8 1; u8 2; u8 3]
    ∧ nd_item (w_heap w') y [1] = Some [u8 4; u8 5; u8 6; u8 7]
    ∧ nd_item (w_heap w') y [1; 2] = Some [u8 6]
    ∧ nd_item (w_heap w') uv [0; 0] = Some [u8 8; u8 9]
    ∧ nd_item (w_heap w') uv [0; 1] = Some [u8 10; u8 11]
    ∧ nd_item (w_heap w') uv [0; 1; 0] = Some [u8 10].
Proof.
  apply (decode_nv12_4x2 buffer0 world12); reflexivity.
Defined.

Lemma decoded_arrays_independent_witness :
  get_numpy_from_buffer buffer0 "NV12" 4 2 world12
  = (Ok (Two (NdArray [2; 4] uint8 1 0) (NdArray [1; 2; 2] uint8 2 0)),
     World [Some (byte_seq 12); Some (byte_seq 8);
            Some [u8 8; u8 9; u8 10; u8 11]]
       [EvMap 0; EvUnmap 0])
  ∧ Forall (λ a, nd_bytes (<[0%nat := None]>
                             [Some (byte_seq 12); Some (byte_seq 8);
                              Some [u8 8; u8 9; u8 10; u8 11]]) a
                 = nd_bytes [Some (byte_seq 12); Some (byte_seq 8);
                             Some [u8 8; u8 9; u8 10; u8 11]] a)
      [NdArray [2; 4] uint8 1 0; NdArray [1; 2; 2] uint8 2 0].
Proof.
  split; [reflexivity|].
  apply (decoded_arrays_independent buffer0 "NV12" 4 2 world12
           (Two (NdArray [2; 4] uint8 1 0) (NdArray [1; 2; 2] uint8 2 0))
           (World [Some (byte_seq 12); Some (byte_seq 8);
                   Some [u8 8; u8 9; u8 10; u8 11]]
              [EvMap 0; EvUnmap 0]) None).
  reflexivity.
Defined.

Lemma unmap_called_exactly_once_witness :
  get_numpy_from_buffer buffer0 "RGB" 5 2 world24
  = (Raise (Exn TypeError "buffer is too small for requested array"),
     World [Some (byte_seq 24)] [EvMap 0; EvUnmap 0])
  ∧ [EvMap 0; EvUnmap 0] = [] ++ [EvMap 0; EvUnmap 0]
  ∧ unmap_count 0 [EvMap 0; EvUnmap 0] = S (unmap_count 0 []).
Proof.
  split; [reflexivity|].
  apply (unmap_called_exactly_once buffer0 "RGB" 5 2 world24
           (Raise (Exn TypeError "buffer is too small for requested array"))
           (World [Some (byte_seq 24)] [EvMap 0; EvUnmap 0]));
    reflexivity.
Defined.

Lemma unsupported_format_raises_witness :
  ∃ e w',
    get_numpy_from_buffer buffer0 "FOO" 4 2 world24 = (Raise e, w')
    ∧ e = Exn ValueError ("Unsupported format: " +:+ "FOO")
    ∧ str_in "FOO" (exn_msg e) = true
    ∧ w_heap w' = w_heap world24
    ∧ w_calls w' = w_calls world24 ++ [EvMap 0; EvUnmap 0].
Proof.
  apply (unsupported_format_raises buffer0 "FOO" 4 2 world24);
    [discriminate | discriminate | discriminate | reflexivity].
Defined.

Lemma map_failure_raises_witness :
  get_numpy_from_buffer unmappable0 "RGB" 4 2 world24
  = (Raise (Exn ValueError "Buffer mapping failed"),
     World (w_heap world24) (w_calls world24 ++ [EvMap 0]))
  ∧ unmap_count 0 (w_calls world24 ++ [EvMap 0])
    = unmap_count 0 (w_calls world24).
Proof.
  apply (map_failure_raises unmappable0 "RGB" 4 2 world24). reflexivity.
Defined.

Lemma decode_rgb_4x2_witness :
  ∃ a w',
    get_numpy_from_buffer buffer0 "RGB" 4 2 world24 = (Ok (One a), w')
    ∧ nd_shape a = [2; 4; 3]
    ∧ nd_dtype a = uint8
    ∧ nd_bytes (w_heap w') a = byte_seq 24
    ∧ nd_item (w_heap w') a [0; 0] = Some [u8 0; u8 1; u8 2]
    ∧ nd_item (w_heap w') a [1; 3] = Some [u8 21; u8 22; u8 23].
Proof.
  apply (decode_rgb_4x2 buffer0 world24); reflexivity.
Defined.

Lemma detect_hailo_arch_hailo8l_witness :
  detect_hailo_arch (λ _, Exited 0 one_device "") []
  = (Ok (Some "hailo8l"), [])
  ∧ str_in "HAILO8" "Device Architecture: HAILO8L" = true
  ∧ detect_hailo_arch (λ _, Exited 0 one_device "") []
    ≠ (Ok (Some "hailo8"), []).
Proof.
  apply (detect_hailo_arch_hailo8l (λ _, Exited 0 one_device "")
           one_device "" ["Board Name: Hailo-8"]
           "Device Architecture: HAILO8L" [EmptyString] []);
    try reflexivity.
  repeat constructor. intros H. discriminate H.
Defined.

(** ** When decoding succeeds, and how it fails *)

Lemma np_ndarray_nonneg (shape : list Z) (dt : dtype) (v : bufview)
    (a : ndarray) :
  np_ndarray shape dt v = Ok a → Forall (λ d, 0 ≤ d) shape.
Proof. intros H. by apply np_ndarray_sized in H as [? _]. Qed.

(** With dimensions numpy can size, a buffer shorter than the array is
    refused by the length test. *)
Lemma np_ndarray_too_small (shape : list Z) (dt : dtype) (v : bufview) :
  Forall (λ d, 0 ≤ d) shape →
  itemsize dt * nonzero_prod shape ≤ NPY_MAX_INTP →
  Z.of_nat (bv_len v) < itemsize dt * prod_shape shape →
  np_ndarray shape dt v
  = Raise (Exn TypeError "buffer is too small for requested array").
Proof.
  intros Hpos Hfit H. unfold np_ndarray.
  pose proof (itemsize_range dt). pose proof (nonzero_prod_pos shape).
  pose proof (prod_le_nonzero_prod shape Hpos).
  rewrite (in_intp_range shape (itemsize dt * nonzero_prod shape))
    by (done || nia).
  rewrite wrap_intp_id by (unfold NPY_MIN_INTP; nia).
  by destruct (Z.ltb_spec (Z.of_nat (bv_len v)) (itemsize dt * prod_shape shape));
    [|lia].
Qed.

Lemma handle_rgb_inv mi width height w r w' :
  handle_rgb mi width height w = (Ok r, w') →
  0 ≤ width ∧ 0 ≤ height
  ∧ height * width * 3 ≤ Z.of_nat (bv_len (mi_data mi))
  ∧ Z.max height 1 * Z.max width 1 * 3 ≤ NPY_MAX_INTP.
Proof.
  unfold handle_rgb, bind, lift.
  destruct (np_ndarray _ _ _) as [v|] eqn:Hv; [|discriminate]. intros _.
  pose proof (np_ndarray_sized _ _ _ _ Hv) as [Hn Hfit].
  apply np_ndarray_inv in Hv as [_ Hsz].
  inversion Hn as [|? ? ? Hn1]; subst. inversion Hn1; subst.
  unfold prod_shape, nonzero_prod, itemsize in Hsz, Hfit.
  cbn [foldr] in Hsz, Hfit. change (Z.max 3 1) with 3 in Hfit. lia.
Qed.

Lemma handle_yuyv_inv mi width height w r w' :
  handle_yuyv mi width height w = (Ok r, w') →
  0 ≤ width ∧ 0 ≤ height
  ∧ height * width * 2 ≤ Z.of_nat (bv_len (mi_data mi))
  ∧ Z.max height 1 * Z.max width 1 * 2 ≤ NPY_MAX_INTP.
Proof.
  unfold handle_yuyv, bind, lift.
  destruct (np_ndarray _ _ _) as [v|] eqn:Hv; [|discriminate]. intros _.
  pose proof (np_ndarray_sized _ _ _ _ Hv) as [Hn Hfit].
  apply np_ndarray_inv in Hv as [_ Hsz].
  inversion Hn as [|? ? ? Hn1]; subst. inversion Hn1; subst.
  unfold prod_shape, nonzero_prod, itemsize in Hsz, Hfit.
  cbn [foldr] in Hsz, Hfit. change (Z.max 2 1) with 2 in Hfit. lia.
Qed.

Lemma py_clamp_nonneg (len : nat) (n : Z) :
  0 ≤ n → Z.of_nat (py_clamp len n) = Z.min n (Z.of_nat len).
Proof. intros H. unfold py_clamp. destruct (Z.ltb_spec n 0); lia. Qed.

Lemma handle_nv12_inv mi width height w r w' :
  handle_nv12 mi width height w = (Ok r, w') →
  0 ≤ width ∧ 0 ≤ height
  ∧ height * width + (height `div` 2) * (width `div` 2) * 2
    ≤ Z.of_nat (bv_len (mi_data mi))
  ∧ Z.max height 1 * Z.max width 1 ≤ NPY_MAX_INTP.
Proof.
  unfold handle_nv12, bind, lift.
  destruct (np_ndarray _ _ (slice_to _ _)) as [yv|] eqn:Hy; [|discriminate].
  cbn beta iota.
  destruct (np_ndarray _ _ (slice_from _ _)) as [uvv|] eqn:Huv; [|discriminate].
  intros _.
  pose proof (np_ndarray_sized _ _ _ _ Hy) as [Hn Hfit].
  apply np_ndarray_inv in Hy as [_ Hy], Huv as [_ Huv].
  inversion Hn as [|? ? ? Hn1]; subst. inversion Hn1; subst.
  assert (0 ≤ width * height) by nia.
  pose proof (py_clamp_nonneg (bv_len (mi_data mi)) (width * height)
                ltac:(done)) as Hc.
  unfold prod_shape, nonzero_prod, itemsize in Hy, Huv, Hfit.
  cbn [foldr slice_to slice_from bv_len] in Hy, Huv, Hfit. lia.
Qed.

(** The frame with a dimension 0 counted as 1 is no smaller than the
    frame. *)
Lemma nv12_sized_of_frame (width height : Z) :
  0 ≤ width → 0 ≤ height →
  height * width + (height `div` 2) * (width `div` 2) * 2 ≤ NPY_MAX_INTP →
  Z.max height 1 * Z.max width 1 ≤ NPY_MAX_INTP →
  frame_bytes "NV12" (Z.max width 1) (Z.max height 1) ≤ NPY_MAX_INTP.
Proof.
  intros Hw Hh Hlen Hfit. rewrite frame_bytes_NV12.
  destruct (Z.max_spec height 1) as [[? Eh]|[? Eh]],
    (Z.max_spec width 1) as [[? Ew]|[? Ew]]; rewrite Eh, Ew in *.
  - change (1 `div` 2) with 0. lia.
  - change (1 `div` 2) with 0. lia.
  - change (1 `div` 2) with 0. lia.
  - done.
Qed.

(** X1. For a supported format the call returns arrays exactly when the
    buffer can be mapped, width and height are not negative, the mapping
    holds at least the bytes of the frame (bytes beyond that are no
    obstacle), and numpy can size the arrays: the frame, with a dimension 0
    counted as 1, has at most 2^63-1 bytes. *)
Theorem decode_succeeds_iff buffer format width height w :
  format = "RGB" ∨ format = "NV12" ∨ format = "YUYV" →
  (∃ r w', get_numpy_from_buffer buffer format width height w = (Ok r, w'))
  ↔ buf_mappable buffer = true ∧ 0 ≤ width ∧ 0 ≤ height
    ∧ frame_bytes format width height ≤ Z.of_nat (length (frame buffer w))
    ∧ frame_bytes format (Z.max width 1) (Z.max height 1) ≤ NPY_MAX_INTP.
Proof.
  intros Hf. split.
  - intros (r & w' & Hrun).
    destruct (buf_mappable buffer) eqn:Hm.
    2: { unfold get_numpy_from_buffer, bind, buffer_map in Hrun.
         rewrite Hm in Hrun. discriminate. }
    split; [done|].
    rewrite get_numpy_from_buffer_mapped in Hrun by done.
    destruct (dispatch _ _ _ _ _) as [r1 w1] eqn:Hd.
    injection Hrun as -> _. unfold dispatch in Hd.
    pose proof (frame_fits buffer w) as Hlen.
    destruct Hf as [-> | [-> | ->]].
    + rewrite FORMAT_HANDLERS_RGB in Hd.
      apply handle_rgb_inv in Hd as (? & ? & ? & ?).
      rewrite !frame_bytes_RGB. by rewrite mapping_len in *.
    + rewrite FORMAT_HANDLERS_NV12 in Hd.
      apply handle_nv12_inv in Hd as (? & ? & Hsz & ?).
      rewrite mapping_len in Hsz. fold (frame buffer w) in Hsz.
      repeat split; try done.
      apply nv12_sized_of_frame; (done || lia).
    + rewrite FORMAT_HANDLERS_YUYV in Hd.
      apply handle_yuyv_inv in Hd as (? & ? & ? & ?).
      rewrite !frame_bytes_YUYV. by rewrite mapping_len in *.
  - intros (Hm & Hw & Hh & Hsz & Hfit).
    destruct Hf as [-> | [-> | ->]];
      rewrite ?frame_bytes_RGB, ?frame_bytes_NV12, ?frame_bytes_YUYV
        in Hsz, Hfit;
      eexists _, _.
    + by apply decode_rgb_ok.
    + pose proof (chroma_nonneg (Z.max width 1) (Z.max height 1)
                    ltac:(lia) ltac:(lia)).
      apply decode_nv12_ok; try done; lia.
    + by apply decode_yuyv_ok.
Qed.

(** X2. A mapping shorter than the frame is not read past its end: for a
    supported format, non-negative width and height and a frame of at most
    2^63-1 bytes, the call raises numpy's [TypeError] "buffer is too small
    for requested array", after the buffer has been unmapped. *)
Theorem truncated_buffer_raises buffer format width height w :
  format = "RGB" ∨ format = "NV12" ∨ format = "YUYV" →
  buf_mappable buffer = true → 0 ≤ width → 0 ≤ height →
  frame_bytes format width height ≤ NPY_MAX_INTP →
  Z.of_nat (length (frame buffer w)) < frame_bytes format width height →
  ∃ w',
    get_numpy_from_buffer buffer format width height w
    = (Raise (Exn TypeError "buffer is too small for requested array"), w')
    ∧ w_calls w' = w_calls w ++ map_unmap buffer.
Proof.
  intros Hf Hm Hw Hh Hfit Hlen.
  rewrite get_numpy_from_buffer_mapped by done. unfold dispatch.
  unfold frame in Hlen. rewrite <- mapping_len in Hlen.
  destruct Hf as [-> | [-> | ->]];
    rewrite ?frame_bytes_RGB, ?frame_bytes_NV12, ?frame_bytes_YUYV
      in Hlen, Hfit.
  - rewrite FORMAT_HANDLERS_RGB. unfold handle_rgb, bind, lift.
    assert (0 < height ∧ 0 < width) as [? ?] by nia.
    rewrite np_ndarray_too_small;
      [|repeat constructor; lia
       |unfold nonzero_prod, itemsize; cbn [foldr];
        rewrite !Z.max_l by lia; lia
       |unfold prod_shape, itemsize; cbn [foldr]; lia].
    eexists. split; [reflexivity|]. unfold map_unmap. simpl.
    by rewrite <- app_assoc.
  - rewrite FORMAT_HANDLERS_NV12. unfold handle_nv12, bind, lift.
    assert (0 ≤ width * height) by nia.
    assert (0 ≤ height `div` 2) by (apply Z.div_pos; lia).
    assert (0 ≤ width `div` 2) by (apply Z.div_pos; lia).
    pose proof (Z.mul_div_le height 2 ltac:(lia)).
    pose proof (Z.mul_div_le width 2 ltac:(lia)).
    pose proof (py_clamp_nonneg (bv_len (mi_data (mapping buffer w)))
                  (width * height) ltac:(done)) as Hc.
    destruct (decide (Z.of_nat (bv_len (mi_data (mapping buffer w)))
                      < width * height)) as [Hy|Hy].
    + assert (0 < height ∧ 0 < width) as [? ?] by nia.
      rewrite np_ndarray_too_small;
        [|repeat constructor; lia
         |unfold nonzero_prod, itemsize; cbn [foldr];
          rewrite !Z.max_l by lia; nia
         |unfold prod_shape, itemsize; cbn [foldr slice_to bv_len]; lia].
      eexists. split; [reflexivity|]. unfold map_unmap. simpl.
      by rewrite <- app_assoc.
    + assert (0 < height `div` 2 ∧ 0 < width `div` 2) as [? ?] by nia.
      rewrite np_ndarray_ok;
        [|unfold prod_shape, itemsize; cbn [foldr slice_to bv_len]; lia
         |repeat constructor; lia
         |unfold nonzero_prod, itemsize; cbn [foldr];
          rewrite !Z.max_l by lia; nia].
      unfold nd_copy at 1. cbn beta iota.
      rewrite np_ndarray_too_small;
        [|repeat constructor; lia
         |unfold nonzero_prod, itemsize; cbn [foldr];
          rewrite !Z.max_l by lia; nia
         |unfold prod_shape, itemsize; cbn [foldr slice_from bv_len]; lia].
      eexists. split; [reflexivity|]. unfold map_unmap. simpl.
      by rewrite <- app_assoc.
  - rewrite FORMAT_HANDLERS_YUYV. unfold handle_yuyv, bind, lift.
    assert (0 < height ∧ 0 < width) as [? ?] by nia.
    rewrite np_ndarray_too_small;
      [|repeat constructor; lia
       |unfold nonzero_prod, itemsize; cbn [foldr];
        rewrite !Z.max_l by lia; lia
       |unfold prod_shape, itemsize; cbn [foldr]; lia].
    eexists. split; [reflexivity|]. unfold map_unmap. simpl.
    by rewrite <- app_assoc.
Qed.

(** X3. Whatever the call ends in, the memory that was there is as it
    was: blocks are only added after the existing ones, so the bytes of the
    source buffer are never written. *)
Theorem decode_preserves_memory buffer format width height w r w' :
  get_numpy_from_buffer buffer format width height w = (r, w') →
  (∃ blocks, w_heap w' = w_heap w ++ blocks)
  ∧ ∀ l, (l < length (w_heap w))%nat →
         heap_block (w_heap w') l = heap_block (w_heap w) l.
Proof.
  intros Hrun.
  assert (Hex : ∃ blocks, w_heap w' = w_heap w ++ blocks).
  { destruct (buf_mappable buffer) eqn:Hm.
    - rewrite get_numpy_from_buffer_mapped in Hrun by done.
      pose proof (dispatch_extends format (mapping buffer w) width height
                    (mapped_world buffer w)) as [Hb _].
      destruct (dispatch _ _ _ _ _) as [r1 w1].
      injection Hrun as _ <-. exact Hb.
    - unfold get_numpy_from_buffer, bind, buffer_map in Hrun.
      rewrite Hm in Hrun. injection Hrun as _ <-.
      exists []. simpl. by rewrite app_nil_r. }
  split; [exact Hex|]. destruct Hex as [blocks ->].
  intros l Hl. by apply heap_block_old.
Qed.

(** ** Where a pixel comes from *)

Lemma nd_offset_cons (d : Z) (shape : list Z) (i : Z) (idx : list Z) :
  0 ≤ i < d →
  nd_offset (d :: shape) (i :: idx)
  = match nd_offset shape idx with
    | Some (o, rest) => Some (i * prod_shape shape + o, rest)
    | None => None
    end.
Proof.
  intros Hi. cbn [nd_offset].
  destruct (Z.leb_spec 0 i); [|lia]. destruct (Z.ltb_spec i d); [|lia]. done.
Qed.

Lemma take_drop_take {A} (n k m : nat) (l : list A) :
  (k + n ≤ m)%nat → take n (drop k (take m l)) = take n (drop k l).
Proof.
  intros H. rewrite !take_drop_commute, take_take. do 2 f_equal. lia.
Qed.

(** Indexing the first two axes of a uint8 array of shape (d1, d2, c). *)
Lemma nd_item_3d (hp : list (option (list byte))) (a : ndarray)
    (d1 d2 c i j : Z) :
  nd_dtype a = uint8 → nd_shape a = [d1; d2; c] →
  0 ≤ i < d1 → 0 ≤ j < d2 →
  nd_item hp a [i; j]
  = Some (take (Z.to_nat c)
            (drop (Z.to_nat (c * (i * d2 + j))) (nd_bytes hp a))).
Proof.
  intros Hdt Hsh Hi Hj. unfold nd_item. rewrite Hsh, Hdt.
  rewrite !nd_offset_cons by done. cbn [nd_offset].
  unfold prod_shape, itemsize. cbn [foldr]. do 3 f_equal; lia.
Qed.

(** Indexing a uint8 array of shape (d1, d2). *)
Lemma nd_item_2d (hp : list (option (list byte))) (a : ndarray)
    (d1 d2 i j : Z) :
  nd_dtype a = uint8 → nd_shape a = [d1; d2] →
  0 ≤ i < d1 → 0 ≤ j < d2 →
  nd_item hp a [i; j]
  = Some (take 1 (drop (Z.to_nat (i * d2 + j)) (nd_bytes hp a))).
Proof.
  intros Hdt Hsh Hi Hj. unfold nd_item. rewrite Hsh, Hdt.
  rewrite !nd_offset_cons by done. cbn [nd_offset].
  unfold prod_shape, itemsize. cbn [foldr].
  replace (Z.to_nat (1 * 1)) with 1%nat by lia. do 3 f_equal; lia.
Qed.

(** X4. RGB is read row by row, three bytes to a pixel: with a mapping of
    at least height*width*3 bytes, pixel (i, j) of the result is the three
    bytes of the buffer from offset 3*(i*width + j). *)
Theorem rgb_pixel buffer width height w i j :
  buf_mappable buffer = true →
  0 ≤ i < height → 0 ≤ j < width →
  height * width * 3 ≤ Z.of_nat (length (frame buffer w)) →
  ∃ a w',
    get_numpy_from_buffer buffer "RGB" width height w = (Ok (One a), w')
    ∧ nd_item (w_heap w') a [i; j]
      = Some (take 3 (drop (Z.to_nat (3 * (i * width + j))) (frame buffer w))).
Proof.
  intros Hm Hi Hj Hsz. pose proof (frame_fits buffer w). eexists _, _.
  split; [apply decode_rgb_ok; (done || rewrite ?Z.max_l by lia; lia)|].
  erewrite nd_item_3d; [|reflexivity|reflexivity|done|done].
  cbn [w_heap]. unfold nd_bytes, nd_nbytes.
  cbn [nd_shape nd_dtype nd_loc nd_off].
  rewrite heap_block_new by apply frame_take_fits.
  rewrite drop_0, take_take.
  change (Z.to_nat 3) with 3%nat. f_equal.
  apply take_drop_take. unfold prod_shape, itemsize. cbn [foldr]. nia.
Qed.

(** X5. YUYV is read row by row, two bytes to a pixel: with a mapping of
    at least height*width*2 bytes, pixel (i, j) of the result is the two
    bytes of the buffer from offset 2*(i*width + j). *)
Theorem yuyv_pixel buffer width height w i j :
  buf_mappable buffer = true →
  0 ≤ i < height → 0 ≤ j < width →
  height * width * 2 ≤ Z.of_nat (length (frame buffer w)) →
  ∃ a w',
    get_numpy_from_buffer buffer "YUYV" width height w = (Ok (One a), w')
    ∧ nd_item (w_heap w') a [i; j]
      = Some (take 2 (drop (Z.to_nat (2 * (i * width + j))) (frame buffer w))).
Proof.
  intros Hm Hi Hj Hsz. pose proof (frame_fits buffer w). eexists _, _.
  split; [apply decode_yuyv_ok; (done || rewrite ?Z.max_l by lia; lia)|].
  erewrite nd_item_3d; [|reflexivity|reflexivity|done|done].
  cbn [w_heap]. unfold nd_bytes, nd_nbytes.
  cbn [nd_shape nd_dtype nd_loc nd_off].
  rewrite heap_block_new by apply frame_take_fits.
  rewrite drop_0, take_take.
  change (Z.to_nat 2) with 2%nat. f_equal.
  apply take_drop_take. unfold prod_shape, itemsize. cbn [foldr]. nia.
Qed.

(** X6. NV12, for a positive width and height and a mapping that holds
    the frame: luma sample (i, j) is the byte of the buffer at offset
    i*width + j; chroma pair (i, j), for i below height/2 and j below
    width/2, is the two bytes from offset
    width*height + 2*(i*(width/2) + j). *)
Theorem nv12_samples buffer width height w :
  buf_mappable buffer = true → 0 < width → 0 < height →
  width * height + (height `div` 2) * (width `div` 2) * 2
    ≤ Z.of_nat (length (frame buffer w)) →
  ∃ y uv w',
    get_numpy_from_buffer buffer "NV12" width height w = (Ok (Two y uv), w')
    ∧ (∀ i j, 0 ≤ i < height → 0 ≤ j < width →
         nd_item (w_heap w') y [i; j]
         = Some (take 1 (drop (Z.to_nat (i * width + j)) (frame buffer w))))
    ∧ (∀ i j, 0 ≤ i < height `div` 2 → 0 ≤ j < width `div` 2 →
         nd_item (w_heap w') uv [i; j]
         = Some (take 2
                   (drop (Z.to_nat (width * height
                                    + 2 * (i * (width `div` 2) + j)))
                      (frame buffer w)))).
Proof.
  intros Hm Hw Hh Hsz. pose proof (frame_fits buffer w).
  assert (0 ≤ width * height) by nia.
  pose proof (chroma_nonneg width height ltac:(lia) ltac:(lia)).
  eexists _, _, _.
  split; [apply decode_nv12_ok; (done || rewrite ?Z.max_l by lia; lia)|].
  split; intros i j Hi Hj.
  - erewrite nd_item_2d; [|reflexivity|reflexivity|done|done].
    cbn [w_heap]. unfold nd_bytes, nd_nbytes.
    cbn [nd_shape nd_dtype nd_loc nd_off].
    rewrite heap_block_new1 by apply frame_take_fits.
    rewrite drop_0, take_take. f_equal.
    apply take_drop_take. unfold prod_shape, itemsize. cbn [foldr]. nia.
  - erewrite nd_item_3d; [|reflexivity|reflexivity|done|done].
    cbn [w_heap]. unfold nd_bytes, nd_nbytes.
    cbn [nd_shape nd_dtype nd_loc nd_off].
    rewrite heap_block_new2 by apply frame_slice_fits.
    rewrite drop_0, take_take.
    change (Z.to_nat 2) with 2%nat. f_equal.
    rewrite take_drop_take
      by (unfold prod_shape, itemsize; cbn [foldr]; nia).
    rewrite drop_drop, <- Z2Nat.inj_add by nia. done.
Qed.

(** ** What the probes answer *)

Lemma scan_lines_range (lines : list string) :
  scan_lines lines = None ∨ scan_lines lines = Some "hailo8"
  ∨ scan_lines lines = Some "hailo8l".
Proof.
  induction lines as [|l ls IH]; [by left|]. cbn [scan_lines].
  destruct (str_in "Device Architecture" l); [|exact IH].
  destruct (str_in "HAILO8L" l); [by right; right|].
  destruct (str_in "HAILO8" l); [by right; left | exact IH].
Qed.


Lemma scan_lines_skip (pre rest : list string) :
  Forall (λ l, classifiable l = false) pre →
  scan_lines (pre ++ rest) = scan_lines rest.
Proof.
  induction 1 as [|l pre Hl _ IH]; [done|]. cbn [app scan_lines].
  unfold classifiable in Hl.
  destruct (str_in "Device Architecture" l); [|exact IH].
  simpl in Hl. rewrite Hl.
  destruct (str_in "HAILO8L" l) eqn:Hl1; [|exact IH].
  apply str_in_HAILO8L in Hl1. congruence.
Qed.

(** X8. When hailortcli exits with status 0 and the first line of its
    output that has both "Device Architecture" and "HAILO8" does not have
    "HAILO8L", the answer is "hailo8" and nothing is printed. *)
Theorem detect_hailo_arch_hailo8 (os : host) out err pre line post
    (p : list string) :
  os hailortcli_args = Exited 0 out err →
  split_nl out = pre ++ line :: post →
  Forall (λ l, classifiable l = false) pre →
  str_in "Device Architecture" line = true →
  str_in "HAILO8" line = true →
  str_in "HAILO8L" line = false →
  detect_hailo_arch os p = (Ok (Some "hailo8"), p).
Proof.
  intros Hos Hsplit Hpre Hd H8 H8l.
  unfold detect_hailo_arch, try_except, bind, subprocess_run, lift.
  fold hailortcli_args. rewrite Hos. cbn [returncode stdout stderr].
  rewrite Hsplit, scan_lines_skip by done. cbn [scan_lines].
  by rewrite Hd, H8l, H8.
Qed.

Lemma scan_lines_None (lines : list string) :
  scan_lines lines = None ↔ Forall (λ l, classifiable l = false) lines.
Proof.
  split.
  - induction lines as [|l ls IH]; [by constructor|]. cbn [scan_lines].
    intros Hs. unfold classifiable.
    destruct (str_in "Device Architecture" l) eqn:Hd.
    + destruct (str_in "HAILO8L" l); [discriminate|].
      destruct (str_in "HAILO8" l) eqn:H8; [discriminate|].
      constructor; [by rewrite Hd, H8 | by apply IH].
    + constructor; [by rewrite Hd | by apply IH].
  - intros Hall.
    rewrite <- (app_nil_r lines), scan_lines_skip by done. done.
Qed.

(** X9. When hailortcli exits with status 0, the answer is [None] exactly
    when no line of its output has both "Device Architecture" and
    "HAILO8". *)
Theorem detect_hailo_arch_none_iff (os : host) out err (p : list string) :
  os hailortcli_args = Exited 0 out err →
  (detect_hailo_arch os p).1 = Ok None
  ↔ Forall (λ l, classifiable l = false) (split_nl out).
Proof.
  intros Hos. rewrite <- scan_lines_None.
  unfold detect_hailo_arch, try_except, bind, subprocess_run, lift.
  fold hailortcli_args. rewrite Hos. cbn [returncode stdout stderr].
  change (negb (0 =? 0)) with false. cbn beta iota.
  destruct (scan_lines (split_nl out)); simpl; split; congruence.
Qed.

(** X10. [detect_pkg_installed] answers [True] exactly when [dpkg -s] on
    the package could be run and exited with status 0; it prints
    nothing. *)
Theorem detect_pkg_installed_true_iff (os : host) pkg_name
    (p p' : list string) :
  detect_pkg_installed os pkg_name p = (Ok true, p')
  ↔ p' = p ∧ ∃ out err, os (dpkg_args pkg_name) = Exited 0 out err.
Proof.
  unfold detect_pkg_installed, try_except, bind, subprocess_check_output,
    lift, ret. fold (dpkg_args pkg_name).
  destruct (os (dpkg_args pkg_name)) as [e|rc out err].
  - destruct (exn_class_eqb _ _); split;
      [discriminate | by intros (_ & ? & ? & ?)
      |discriminate | by intros (_ & ? & ? & ?)].
  - destruct (Z.eqb_spec rc 0) as [->|Hrc]; simpl.
    + split; [intros [= <-]; eauto | by intros [-> _]].
    + split; [discriminate | intros (_ & ? & ? & [= ? _ _]); done].
Qed.

Lemma exn_class_eqb_eq (a b : exn_class) :
  exn_class_eqb a b = true ↔ a = b.
Proof. destruct a, b; simpl; split; (done || discriminate). Qed.

(** X11. [detect_pkg_installed] raises only what starting dpkg raised,
    and only when that is not a [CalledProcessError]. *)
Theorem detect_pkg_installed_raises_iff (os : host) pkg_name
    (p p' : list string) (e : exn) :
  detect_pkg_installed os pkg_name p = (Raise e, p')
  ↔ p' = p ∧ os (dpkg_args pkg_name) = Failed e
    ∧ exn_cls e ≠ CalledProcessError.
Proof.
  unfold detect_pkg_installed, try_except, bind, subprocess_check_output,
    lift, ret. fold (dpkg_args pkg_name).
  destruct (os (dpkg_args pkg_name)) as [e0|rc out err].
  - destruct (exn_class_eqb (exn_cls e0) CalledProcessError) eqn:Hc.
    + apply exn_class_eqb_eq in Hc.
      split; [discriminate | intros (_ & [= ->] & ?); done].
    + split.
      * intros [= -> ->]. repeat split. intros Hc'.
        apply exn_class_eqb_eq in Hc'. congruence.
      * by intros (-> & [= ->] & _).
  - destruct (rc =? 0); simpl;
      (split; [discriminate | intros (_ & ? & _); discriminate]).
Qed.

(** ** What the caps accessor hands back *)

(** X12. [get_caps_from_pad] hands back the bare [None] exactly when the
    pad has truthy caps whose first structure is missing or falsy; without
    truthy caps it hands back (None, None, None); and whenever the result
    is not the bare [None] it is a 3-tuple. *)
Theorem get_caps_from_pad_cases (pad : GstPad) :
  (get_caps_from_pad pad = RetNone
   ↔ ∃ caps, get_current_caps pad = Some caps ∧ caps_truthy caps = true
             ∧ (get_structure caps 0 = None
                ∨ ∃ structure, get_structure caps 0 = Some structure
                               ∧ structure_truthy structure = false))
  ∧ ((∀ caps, get_current_caps pad = Some caps → caps_truthy caps = false) →
     get_caps_from_pad pad = RetTuple [PyNone; PyNone; PyNone])
  ∧ (get_caps_from_pad pad ≠ RetNone → is_triple (get_caps_from_pad pad)).
Proof.
  unfold get_caps_from_pad, is_triple.
  destruct (get_current_caps pad) as [caps|].
  2: { split; [split; [discriminate | by intros (? & ? & _)]|].
       split; [done | eauto]. }
  destruct (caps_truthy caps) eqn:Ht.
  2: { split; [split; [discriminate|]|].
       - intros (c & [= <-] & ? & _). congruence.
       - split; [done | eauto]. }
  destruct (get_structure caps 0) as [st|] eqn:Hs.
  2: { split; [split; [eauto 10 | done]|].
       split; [intros H; specialize (H caps eq_refl); congruence | done]. }
  destruct (structure_truthy st) eqn:Hst.
  - split; [split; [discriminate|]|].
    + intros (c & [= <-] & _ & [?|(s' & ? & ?)]); congruence.
    + split; [intros H; specialize (H caps eq_refl); congruence | eauto].
  - split; [split; [eauto 10 | done]|].
    split; [intros H; specialize (H caps eq_refl); congruence | done].
Qed.

(** ** The host architecture *)

Lemma lower_ascii_idem (c : ascii) : lower_ascii (lower_ascii c) = lower_ascii c.
Proof.
  destruct c as [b0 b1 b2 b3 b4 b5 b6 b7].
  destruct b0, b1, b2, b3, b4, b5, b6, b7; reflexivity.
Qed.

Lemma str_lower_idem (s : string) : str_lower (str_lower s) = str_lower s.
Proof.
  induction s as [|c s IH]; [done|]. cbn [str_lower].
  by rewrite lower_ascii_idem, IH.
Qed.

Lemma prefix_app_r (a b s : string) :
  String.prefix (a +:+ b) s = true → str_in b s = true.
Proof.
  revert s. induction a as [|c a IH]; intros s; [apply str_in_prefix|].
  destruct s as [|d s]; simpl; [done|].
  destruct (ascii_dec c d); [|done]. intros Hp.
  apply str_in_cons, IH, Hp.
Qed.

Lemma str_in_app_r (a b s : string) :
  str_in (a +:+ b) s = true → str_in b s = true.
Proof.
  induction s as [|d s IH].
  - rewrite (str_in_unfold (a +:+ b) EmptyString).
    intros [Hp|Hr]%orb_true_iff; [|done]. by eapply prefix_app_r.
  - rewrite (str_in_unfold (a +:+ b) (String d s)).
    intros [Hp|Hr]%orb_true_iff; [by eapply prefix_app_r|].
    by apply str_in_cons, IH.
Qed.

(** X13. [detect_device_arch] answers one of "rpi", "arm", "x86",
    "unknown". *)
Theorem detect_device_arch_range (platform : platform_info) :
  detect_device_arch platform ∈ ["rpi"; "arm"; "x86"; "unknown"].
Proof.
  unfold detect_device_arch.
  destruct (_ || _); [destruct (_ && _)|destruct (_ || _)];
    repeat (apply list_elem_of_here || apply list_elem_of_further).
Qed.

(** X14. The answer is "rpi" exactly when the lower-cased machine name has
    "arm" or "aarch64", the lower-cased system name is "linux", and the
    host name, as it is spelled, has "pi": the test for "raspberrypi" adds
    nothing to the test for "pi". *)
Theorem detect_device_arch_rpi_iff (platform : platform_info) :
  detect_device_arch platform = "rpi"
  ↔ (str_in "arm" (str_lower (machine platform)) = true
     ∨ str_in "aarch64" (str_lower (machine platform)) = true)
    ∧ str_lower (system platform) = "linux"
    ∧ str_in "pi" (node platform) = true.
Proof.
  unfold detect_device_arch.
  assert (Hpi : str_in "raspberrypi" (node platform)
                || str_in "pi" (node platform)
                = str_in "pi" (node platform)).
  { destruct (str_in "raspberrypi" (node platform)) eqn:Hr; [|done].
    by rewrite (str_in_app_r "raspberry" "pi" _ Hr). }
  rewrite Hpi. clear Hpi.
  destruct (str_in "arm" _) eqn:Ha; destruct (str_in "aarch64" _) eqn:Hb;
    cbn [orb].
  4: { destruct (_ || _); split; (discriminate || intros [[?|?] _]; done). }
  all: destruct (String.eqb_spec (str_lower (system platform)) "linux")
         as [He|He];
       destruct (str_in "pi" (node platform)); cbn [andb];
       split; intros H;
       try discriminate H; try reflexivity;
       try (destruct H as (_ & ? & ?); congruence);
       naive_solver.
Qed.

(** X15. Only the letter case of the machine and system names is ignored:
    lower-casing them beforehand changes nothing. *)
Theorem detect_device_arch_case_insensitive (m s n : string) :
  detect_device_arch {| machine := str_lower m; system := str_lower s;
                        node := n |}
  = detect_device_arch {| machine := m; system := s; node := n |}.
Proof.
  unfold detect_device_arch. cbn [machine system node].
  by rewrite !str_lower_idem.
Qed.

(** X16. The answer is "x86" exactly when the lower-cased machine name has
    "x86" or "amd64" and has neither "arm" nor "aarch64": ARM is tested
    first. *)
Theorem detect_device_arch_x86_iff (platform : platform_info) :
  detect_device_arch platform = "x86"
  ↔ (str_in "x86" (str_lower (machine platform)) = true
     ∨ str_in "amd64" (str_lower (machine platform)) = true)
    ∧ str_in "arm" (str_lower (machine platform)) = false
    ∧ str_in "aarch64" (str_lower (machine platform)) = false.
Proof.
  unfold detect_device_arch.
  destruct (str_in "arm" _) eqn:Ha; destruct (str_in "aarch64" _) eqn:Hb;
    cbn [orb].
  1-3: destruct (_ && _); split; intros H;
         try discriminate H; destruct H as (_ & ? & ?); congruence.
  destruct (str_in "x86" _); destruct (str_in "amd64" _); cbn [orb];
    split; intros H; try discriminate H; try reflexivity;
    try (destruct H as ([H|H] & _); discriminate H);
    (split; [(by left) || (by right) | done]).
Qed.

(** ** The resource directories *)

Lemma adds_dirs_only_refl (fs : gmap (list string) entry) :
  adds_dirs_only fs fs.
Proof. intros p. by left. Qed.

Lemma adds_dirs_only_trans (fs1 fs2 fs3 : gmap (list string) entry) :
  adds_dirs_only fs1 fs2 → adds_dirs_only fs2 fs3 → adds_dirs_only fs1 fs3.
Proof.
  intros H12 H23 p.
  destruct (H12 p) as [E1|[N1 D1]], (H23 p) as [E2|[N2 D2]].
  - left. congruence.
  - right. split; congruence.
  - right. split; congruence.
  - congruence.
Qed.

Lemma adds_dirs_only_insert (fs : gmap (list string) entry) (q : list string) :
  fs !! q = None → adds_dirs_only fs (<[q := Dir]> fs).
Proof.
  intros Hq p. destruct (decide (q = p)) as [<-|Hne].
  - right. by rewrite lookup_insert_eq.
  - left. by rewrite lookup_insert_ne.
Qed.

Lemma adds_dirs_only_keeps (fs fs' : gmap (list string) entry)
    (p : list string) (e : entry) :
  adds_dirs_only fs fs' → fs !! p = Some e → fs' !! p = Some e.
Proof. intros H Hp. destruct (H p) as [E|[N _]]; congruence. Qed.

Lemma mkdir_walk_adds_dirs_only (pre todo : list string) (fs : gmap (list string) entry) :
  adds_dirs_only fs (mkdir_walk pre todo fs).2.
Proof.
  revert pre fs. induction todo as [|c rest IH]; intros pre fs.
  - apply adds_dirs_only_refl.
  - cbn [mkdir_walk]. destruct (fs !! (pre ++ [c])) as [[|]|] eqn:Hq.
    + apply IH.
    + apply adds_dirs_only_refl.
    + eapply adds_dirs_only_trans; [by apply adds_dirs_only_insert|apply IH].
Qed.

(** After a walk that returned, every path walked through is a
    directory. *)
Lemma mkdir_walk_dirs (pre todo : list string) (fs fs' : gmap (list string) entry) :
  mkdir_walk pre todo fs = (None, fs') →
  ∀ t1 t2, todo = t1 ++ t2 → t1 ≠ [] → fs' !! (pre ++ t1) = Some Dir.
Proof.
  revert pre fs. induction todo as [|c rest IH]; intros pre fs Hrun t1 t2 Ht Hne.
  { symmetry in Ht. apply app_eq_nil in Ht as [-> _]. done. }
  destruct t1 as [|c' t1]; [done|]. injection Ht as <- Hrest.
  cbn [mkdir_walk] in Hrun.
  assert (Hstep : ∃ fs1, fs1 !! (pre ++ [c]) = Some Dir
                         ∧ mkdir_walk (pre ++ [c]) rest fs1 = (None, fs')).
  { destruct (fs !! (pre ++ [c])) as [[|]|] eqn:Hq.
    - by exists fs.
    - discriminate.
    - exists (<[pre ++ [c] := Dir]> fs). by rewrite lookup_insert_eq. }
  destruct Hstep as (fs1 & Hq & Hrec).
  destruct t1 as [|c'' t1].
  - eapply adds_dirs_only_keeps; [|exact Hq].
    pose proof (mkdir_walk_adds_dirs_only (pre ++ [c]) rest fs1) as H.
    by rewrite Hrec in H.
  - replace (pre ++ c :: c'' :: t1) with ((pre ++ [c]) ++ c'' :: t1)
      by (by rewrite <- app_assoc).
    by eapply IH.
Qed.

(** Walking through directories only changes nothing. *)
Lemma mkdir_walk_noop (pre todo : list string) (fs : gmap (list string) entry) :
  (∀ t1 t2, todo = t1 ++ t2 → t1 ≠ [] → fs !! (pre ++ t1) = Some Dir) →
  mkdir_walk pre todo fs = (None, fs).
Proof.
  revert pre. induction todo as [|c rest IH]; intros pre Hall; [done|].
  cbn [mkdir_walk]. rewrite (Hall [c] rest eq_refl ltac:(done)).
  apply IH. intros t1 t2 -> Hne.
  replace ((pre ++ [c]) ++ t1) with (pre ++ c :: t1)
    by (by rewrite <- app_assoc).
  by apply (Hall (c :: t1) t2).
Qed.

(** What a walk changes lies on the path walked. *)
Lemma mkdir_walk_changes (pre todo : list string) (fs : gmap (list string) entry) p :
  (mkdir_walk pre todo fs).2 !! p ≠ fs !! p →
  ∃ t1 t2, todo = t1 ++ t2 ∧ t1 ≠ [] ∧ p = pre ++ t1.
Proof.
  revert pre fs. induction todo as [|c rest IH]; intros pre fs Hch; [done|].
  cbn [mkdir_walk] in Hch.
  assert (Hrec : ∀ fs1, (mkdir_walk (pre ++ [c]) rest fs1).2 !! p ≠ fs1 !! p →
                        ∃ t1 t2, c :: rest = t1 ++ t2 ∧ t1 ≠ []
                                 ∧ p = pre ++ t1).
  { intros fs1 H1. apply IH in H1 as (t1 & t2 & -> & _ & ->).
    exists (c :: t1), t2. by rewrite <- app_assoc. }
  destruct (fs !! (pre ++ [c])) as [[|]|] eqn:Hq.
  - by apply (Hrec fs).
  - done.
  - destruct (decide (pre ++ [c] = p)) as [<-|Hne].
    + by exists [c], rest.
    + apply (Hrec (<[pre ++ [c] := Dir]> fs)).
      by rewrite lookup_insert_ne.
Qed.

Lemma mkdir_each_adds_dirs_only (base_path : list string)
    (subs : list string) (fs : gmap (list string) entry) :
  adds_dirs_only fs (mkdir_each base_path subs fs).2.
Proof.
  revert fs. induction subs as [|sub subs IH]; intros fs;
    [apply adds_dirs_only_refl|].
  cbn [mkdir_each]. unfold mkdir_parents_exist_ok.
  pose proof (mkdir_walk_adds_dirs_only [] (path_join base_path sub) fs) as H.
  destruct (mkdir_walk [] (path_join base_path sub) fs) as [[e|] fs1];
    [exact H|].
  eapply adds_dirs_only_trans; [exact H|apply IH].
Qed.

Lemma mkdir_each_dirs (base_path : list string) (subs : list string)
    (fs fs' : gmap (list string) entry) :
  mkdir_each base_path subs fs = (None, fs') →
  ∀ sub t1 t2, sub ∈ subs → path_join base_path sub = t1 ++ t2 → t1 ≠ [] →
               fs' !! t1 = Some Dir.
Proof.
  revert fs. induction subs as [|s subs IH]; intros fs Hrun sub t1 t2 Hin Ht Hne.
  { by apply elem_of_nil in Hin. }
  cbn [mkdir_each] in Hrun. unfold mkdir_parents_exist_ok in Hrun.
  destruct (mkdir_walk [] (path_join base_path s) fs) as [[e|] fs1] eqn:Hw;
    [discriminate|].
  apply elem_of_cons in Hin as [->|Hin]; [|by eapply IH].
  eapply adds_dirs_only_keeps.
  - pose proof (mkdir_each_adds_dirs_only base_path subs fs1) as H.
    rewrite Hrun in H. exact H.
  - by apply (mkdir_walk_dirs [] _ _ _ Hw t1 t2).
Qed.

Lemma mkdir_each_noop (base_path : list string) (subs : list string)
    (fs : gmap (list string) entry) :
  (∀ sub t1 t2, sub ∈ subs → path_join base_path sub = t1 ++ t2 → t1 ≠ [] →
                fs !! t1 = Some Dir) →
  mkdir_each base_path subs fs = (None, fs).
Proof.
  induction subs as [|s subs IH]; intros Hall; [done|].
  cbn [mkdir_each]. unfold mkdir_parents_exist_ok.
  rewrite mkdir_walk_noop.
  - apply IH. intros sub t1 t2 Hin. apply Hall. by right.
  - intros t1 t2. apply Hall. by left.
Qed.

Lemma mkdir_each_changes (base_path : list string) (subs : list string)
    (fs : gmap (list string) entry) (p : list string) :
  (mkdir_each base_path subs fs).2 !! p ≠ fs !! p →
  ∃ sub t2, sub ∈ subs ∧ path_join base_path sub = p ++ t2 ∧ p ≠ [].
Proof.
  revert fs. induction subs as [|s subs IH]; intros fs Hch; [done|].
  cbn [mkdir_each] in Hch. unfold mkdir_parents_exist_ok in Hch.
  destruct (decide ((mkdir_walk [] (path_join base_path s) fs).2 !! p
                    = fs !! p)) as [Heq|Hne].
  - destruct (mkdir_walk [] (path_join base_path s) fs) as [[e|] fs1];
      cbn [snd] in *; [done|].
    rewrite <- Heq in Hch. apply IH in Hch as (sub & t2 & Hin & Hp & Hn).
    exists sub, t2. split; [by right | done].
  - apply mkdir_walk_changes in Hne as (t1 & t2 & Ht & Hn & ->).
    exists s, t2. split; [by left | done].
Qed.

Ltac in_list :=
  repeat (apply list_elem_of_here || apply list_elem_of_further).

Lemma path_join_1 (base_path : list string) :
  path_join base_path "videos" = base_path ++ ["videos"]
  ∧ path_join base_path "photos" = base_path ++ ["photos"]
  ∧ path_join base_path "gifs" = base_path ++ ["gifs"].
Proof. done. Qed.

Lemma path_join_2 (base_path : list string) :
  path_join base_path "models/hailo8" = base_path ++ ["models"; "hailo8"]
  ∧ path_join base_path "models/hailo8l" = base_path ++ ["models"; "hailo8l"]
  ∧ path_join base_path "models/hailo10" = base_path ++ ["models"; "hailo10"].
Proof. done. Qed.

Lemma mkdir_each_layout (base_path : list string)
    (fs fs' : gmap (list string) entry) :
  create_standard_resource_dirs base_path fs = (None, fs') →
  Forall (λ d, fs' !! (base_path ++ d) = Some Dir) standard_dirs.
Proof.
  intros Hrun. unfold create_standard_resource_dirs in Hrun.
  pose proof (mkdir_each_dirs _ _ _ _ Hrun) as H.
  destruct (path_join_1 base_path) as (Hv & Hp & Hg).
  destruct (path_join_2 base_path) as (H8 & H8l & H10).
  repeat apply Forall_cons_2; [..|apply Forall_nil_2].
  - apply (H "models/hailo8" _ ["hailo8"]); [in_list| |by destruct base_path].
    by rewrite H8, <- app_assoc.
  - apply (H "models/hailo8" _ []); [in_list| |by destruct base_path].
    by rewrite H8, app_nil_r.
  - apply (H "models/hailo8l" _ []); [in_list| |by destruct base_path].
    by rewrite H8l, app_nil_r.
  - apply (H "models/hailo10" _ []); [in_list| |by destruct base_path].
    by rewrite H10, app_nil_r.
  - apply (H "videos" _ []); [in_list| |by destruct base_path].
    by rewrite Hv, app_nil_r.
  - apply (H "photos" _ []); [in_list| |by destruct base_path].
    by rewrite Hp, app_nil_r.
  - apply (H "gifs" _ []); [in_list| |by destruct base_path].
    by rewrite Hg, app_nil_r.
Qed.

(** X17. When [create_standard_resource_dirs] returns, the layout is
    there: under the base path, models, models/hailo8, models/hailo8l,
    models/hailo10, videos, photos and gifs are all directories. *)
Theorem create_standard_resource_dirs_layout (base_path : list string)
    (fs fs' : gmap (list string) entry) :
  create_standard_resource_dirs base_path fs = (None, fs') →
  Forall (λ d, fs' !! (base_path ++ d) = Some Dir) standard_dirs.
Proof. apply mkdir_each_layout. Qed.

(** X18. Whether it returns or raises, [create_standard_resource_dirs]
    removes nothing and overwrites nothing: each path is as before, or was
    missing and is now a directory. *)
Theorem create_standard_resource_dirs_keeps (base_path : list string)
    (fs : gmap (list string) entry) :
  adds_dirs_only fs (create_standard_resource_dirs base_path fs).2.
Proof. apply mkdir_each_adds_dirs_only. Qed.

(** X19. The call touches nothing but the layout and the way to it: a
    path whose entry changed is the base path or one of its ancestors, or
    one of the seven directories of the layout. *)
Theorem create_standard_resource_dirs_scope (base_path : list string)
    (fs : gmap (list string) entry) (p : list string) :
  (create_standard_resource_dirs base_path fs).2 !! p ≠ fs !! p →
  (∃ t, base_path = p ++ t)
  ∨ ∃ d, d ∈ standard_dirs ∧ p = base_path ++ d.
Proof.
  intros Hch. unfold create_standard_resource_dirs in Hch.
  apply mkdir_each_changes in Hch as (sub & t2 & Hin & Hj & _).
  destruct (path_join_1 base_path) as (Hv & Hp & Hg).
  destruct (path_join_2 base_path) as (H8 & H8l & H10).
  assert (Hcase : ∃ ds, path_join base_path sub = base_path ++ ds
                        ∧ ∀ k t, ds = k ++ t → k = [] ∨ k ∈ standard_dirs).
  { unfold standard_dirs.
    repeat (apply elem_of_cons in Hin as [->|Hin]);
      [..|by apply elem_of_nil in Hin];
      eexists; (split; [eassumption|]);
      intros [|a [|b [|c k]]] t [=]; subst; (by left) || (right; in_list). }
  destruct Hcase as (ds & Hds & Hk). rewrite Hds in Hj.
  symmetry in Hj. apply app_eq_inv in Hj as [(k & -> & Ht)|(k & -> & _)].
  - destruct (Hk _ _ Ht) as [->|Hin'].
    + left. exists []. by rewrite !app_nil_r.
    + right. by exists k.
  - left. by exists k.
Qed.

(** X20. Running [create_standard_resource_dirs] again after it has
    returned changes nothing and returns again. *)
Theorem create_standard_resource_dirs_idempotent (base_path : list string)
    (fs fs' : gmap (list string) entry) :
  create_standard_resource_dirs base_path fs = (None, fs') →
  create_standard_resource_dirs base_path fs' = (None, fs').
Proof.
  intros Hrun. unfold create_standard_resource_dirs in *.
  apply mkdir_each_noop. intros sub t1 t2.
  by apply (mkdir_each_dirs _ _ _ _ Hrun).
Qed.

(** X21. A regular file in the way makes the call raise, and stays: when
    the base path, one of its ancestors or one of the seven directories of
    the layout is a regular file, [create_standard_resource_dirs] does not
    return normally, and the file is still there afterwards. *)
Theorem create_standard_resource_dirs_blocked (base_path : list string)
    (fs : gmap (list string) entry) (p : list string) :
  p ≠ [] →
  (∃ t, base_path = p ++ t) ∨ (∃ d, d ∈ standard_dirs ∧ p = base_path ++ d) →
  fs !! p = Some File →
  (create_standard_resource_dirs base_path fs).1 ≠ None
  ∧ (create_standard_resource_dirs base_path fs).2 !! p = Some File.
Proof.
  intros Hne Hp Hfile.
  pose proof (mkdir_each_adds_dirs_only base_path
                ["models/hailo8"; "models/hailo8l"; "models/hailo10";
                 "videos"; "photos"; "gifs"] fs) as Hkeep.
  fold (create_standard_resource_dirs base_path fs) in Hkeep.
  pose proof (adds_dirs_only_keeps _ _ _ _ Hkeep Hfile) as Hstay.
  split; [|exact Hstay].
  destruct (create_standard_resource_dirs base_path fs) as [[e|] fs'] eqn:Hrun;
    [done|].
  cbn [fst snd] in *. exfalso.
  assert (fs' !! p = Some Dir) as Hdir; [|congruence].
  destruct Hp as [[t ->]|(d & Hd & ->)].
  - unfold create_standard_resource_dirs in Hrun.
    apply (mkdir_each_dirs _ _ _ _ Hrun "videos" p (t ++ ["videos"]));
      [in_list| |done].
    destruct (path_join_1 (p ++ t)) as (Hv & _). by rewrite Hv, <- app_assoc.
  - apply mkdir_each_layout in Hrun. rewrite Forall_forall in Hrun.
    by apply Hrun.
Qed.

Lemma detect_hailo_arch_some (os : host) (p p' : list string) arch :
  detect_hailo_arch os p = (Ok (Some arch), p') →
  arch = "hailo8" ∨ arch = "hailo8l".
Proof.
  unfold detect_hailo_arch, try_except, bind, subprocess_run, lift, print, ret.
  destruct (os _) as [e|rc out err]; cbn [returncode stdout stderr];
    [discriminate|].
  destruct (negb (rc =? 0)); [discriminate|].
  destruct (scan_lines_range (split_nl out)) as [Hs|[Hs|Hs]]; rewrite Hs;
    intros [= <- _]; eauto.
Qed.

(** X23. The layout has a model directory for every architecture
    [detect_hailo_arch] can name: once [create_standard_resource_dirs] has
    returned, models/<arch> under the base path is a directory for any
    answer <arch> of the probe. *)
Theorem model_dir_for_detected_arch (base_path : list string)
    (fs fs' : gmap (list string) entry) (os : host) (p p' : list string)
    (arch : string) :
  create_standard_resource_dirs base_path fs = (None, fs') →
  detect_hailo_arch os p = (Ok (Some arch), p') →
  fs' !! (base_path ++ ["models"; arch]) = Some Dir.
Proof.
  intros Hrun Hd. apply mkdir_each_layout in Hrun.
  rewrite Forall_forall in Hrun.
  apply detect_hailo_arch_some in Hd as [->| ->]; apply Hrun;
    unfold standard_dirs; in_list.
Qed.

(** ** More concrete runs *)

Lemma decode_succeeds_iff_witness :
  (∃ r w', get_numpy_from_buffer buffer0 "NV12" 5 3 world19 = (Ok r, w'))
  ↔ buf_mappable buffer0 = true ∧ 0 ≤ 5 ∧ 0 ≤ 3
    ∧ frame_bytes "NV12" 5 3 ≤ Z.of_nat (length (frame buffer0 world19))
    ∧ frame_bytes "NV12" (Z.max 5 1) (Z.max 3 1) ≤ NPY_MAX_INTP.
Proof.
  apply (decode_succeeds_iff buffer0 "NV12" 5 3 world19).
  right; left; reflexivity.
Defined.

Lemma truncated_buffer_raises_witness :
  ∃ w',
    get_numpy_from_buffer buffer0 "NV12" 4 3 world12
    = (Raise (Exn TypeError "buffer is too small for requested array"), w')
    ∧ w_calls w' = w_calls world12 ++ map_unmap buffer0.
Proof.
  apply (truncated_buffer_raises buffer0 "NV12" 4 3 world12);
    [right; left; reflexivity | reflexivity | lia | lia
     | vm_compute; discriminate | reflexivity].
Defined.

Lemma decode_preserves_memory_witness :
  (∃ blocks, [Some (byte_seq 24); Some (byte_seq 16)]
             = w_heap world24 ++ blocks)
  ∧ ∀ l, (l < length (w_heap world24))%nat →
         heap_block [Some (byte_seq 24); Some (byte_seq 16)] l
         = heap_block (w_heap world24) l.
Proof.
  apply (decode_preserves_memory buffer0 "YUYV" 4 2 world24
           (Ok (One (NdArray [2; 4; 2] uint8 1 0)))
           (World [Some (byte_seq 24); Some (byte_seq 16)]
              [EvMap 0; EvUnmap 0])).
  reflexivity.
Defined.

Lemma rgb_pixel_witness :
  ∃ a w',
    get_numpy_from_buffer buffer0 "RGB" 4 2 world24 = (Ok (One a), w')
    ∧ nd_item (w_heap w') a [1; 3]
      = Some (take 3 (drop (Z.to_nat (3 * (1 * 4 + 3)))
                        (frame buffer0 world24))).
Proof.
  apply (rgb_pixel buffer0 4 2 world24 1 3);
    [reflexivity | lia | lia | vm_compute; discriminate].
Defined.

Lemma yuyv_pixel_witness :
  ∃ a w',
    get_numpy_from_buffer buffer0 "YUYV" 4 2 world24 = (Ok (One a), w')
    ∧ nd_item (w_heap w') a [1; 3]
      = Some (take 2 (drop (Z.to_nat (2 * (1 * 4 + 3)))
                        (frame buffer0 world24))).
Proof.
  apply (yuyv_pixel buffer0 4 2 world24 1 3);
    [reflexivity | lia | lia | vm_compute; discriminate].
Defined.

Lemma nv12_samples_witness :
  ∃ y uv w',
    get_numpy_from_buffer buffer0 "NV12" 4 2 world12 = (Ok (Two y uv), w')
    ∧ (∀ i j, 0 ≤ i < 2 → 0 ≤ j < 4 →
         nd_item (w_heap w') y [i; j]
         = Some (take 1 (drop (Z.to_nat (i * 4 + j)) (frame buffer0 world12))))
    ∧ (∀ i j, 0 ≤ i < 2 `div` 2 → 0 ≤ j < 4 `div` 2 →
         nd_item (w_heap w') uv [i; j]
         = Some (take 2
                   (drop (Z.to_nat (4 * 2 + 2 * (i * (4 `div` 2) + j)))
                      (frame buffer0 world12)))).
Proof.
  apply (nv12_samples buffer0 4 2 world12);
    [reflexivity | lia | lia | vm_compute; discriminate].
Defined.

Lemma detect_hailo_arch_hailo8_witness :
  detect_hailo_arch (host_reporting (Exited 0 hailo8_report "")) []
  = (Ok (Some "hailo8"), []).
Proof.
  apply (detect_hailo_arch_hailo8 (host_reporting (Exited 0 hailo8_report ""))
           hailo8_report "" ["Board Name: Hailo-8"]
           "Device Architecture: HAILO8" [EmptyString] []);
    try reflexivity.
  repeat constructor.
Defined.

Lemma detect_hailo_arch_none_iff_witness :
  (detect_hailo_arch (host_reporting (Exited 0 hailo15_report "")) []).1
  = Ok None
  ↔ Forall (λ l, classifiable l = false) (split_nl hailo15_report).
Proof.
  apply (detect_hailo_arch_none_iff
           (host_reporting (Exited 0 hailo15_report "")) hailo15_report "" []).
  reflexivity.
Defined.

Lemma create_standard_resource_dirs_layout_witness :
  Forall (λ d, (create_standard_resource_dirs resources ∅).2
               !! (resources ++ d) = Some Dir)
    standard_dirs.
Proof.
  apply (create_standard_resource_dirs_layout resources ∅
           (create_standard_resource_dirs resources ∅).2).
  reflexivity.
Defined.

Lemma create_standard_resource_dirs_scope_witness :
  (∃ t, resources = (resources ++ ["gifs"]) ++ t)
  ∨ ∃ d, d ∈ standard_dirs ∧ resources ++ ["gifs"] = resources ++ d.
Proof.
  apply (create_standard_resource_dirs_scope resources ∅
           (resources ++ ["gifs"])).
  vm_compute. discriminate.
Defined.

Lemma create_standard_resource_dirs_idempotent_witness :
  create_standard_resource_dirs resources
    (create_standard_resource_dirs resources ∅).2
  = (None, (create_standard_resource_dirs resources ∅).2).
Proof.
  apply (create_standard_resource_dirs_idempotent resources ∅
           (create_standard_resource_dirs resources ∅).2).
  reflexivity.
Defined.

Lemma create_standard_resource_dirs_blocked_witness :
  (create_standard_resource_dirs resources blocked_fs).1 ≠ None
  ∧ (create_standard_resource_dirs resources blocked_fs).2
    !! ["opt"; "resources"; "videos"] = Some File.
Proof.
  apply (create_standard_resource_dirs_blocked resources blocked_fs
           ["opt"; "resources"; "videos"]);
    [discriminate
    | right; exists ["videos"]; split; [unfold standard_dirs; in_list
                                        | reflexivity]
    | reflexivity].
Defined.

Lemma model_dir_for_detected_arch_witness :
  (create_standard_resource_dirs resources ∅).2
  !! (resources ++ ["models"; "hailo8l"]) = Some Dir.
Proof.
  apply (model_dir_for_detected_arch resources ∅
           (create_standard_resource_dirs resources ∅).2
           (host_reporting (Exited 0 one_device "")) [] [] "hailo8l");
    reflexivity.
Defined.
